(** * PPStory reel builder: a shallow embedding of [app.py]

    The development follows the parts of the program that carry
    behaviour of their own:

    - the motion analyzer, [detect_interesting_moments];
    - the reel pipeline, [create_reel], with its asynchronous wrapper
      [create_reel_async];
    - the polling endpoint, [check_status], over the two global job maps;
    - the file-name filters, [allowed_file] and [allowed_music_file];
    - the render endpoint, [create_reel_endpoint], which chooses and orders
      the files and starts the worker.

    Times are Python floats in the source.  They are embedded as exact
    rationals ([Q]): every comparison, [min], [max] and arithmetic step of
    the source is kept, rounding is not modelled.  Calls into moviepy,
    numpy and the file system are the fields of interface records, so every
    statement below holds for every behaviour of these collaborators
    (raising included) unless a hypothesis says otherwise. *)

From Stdlib Require Import QArith Qabs Qround Lqa ZArith List Ascii String Lia.
From Stdlib Require Import Permutation Sorted.
From stdpp Require Import gmap strings.

Open Scope Q_scope.

(** ** Python values and arithmetic *)

Module Py.

(** The outcome of a call that may raise; the exception is kept as its
    message, [str(e)]. *)
Inductive outcome (A : Type) : Type :=
| Raise (e : string)
| Return (a : A).
Arguments Raise {A} e.
Arguments Return {A} a.

(** [x < y] and [x > y] on numbers. *)
Definition Qltb (x y : Q) : bool := negb (Qle_bool y x).
Definition Qgtb (x y : Q) : bool := Qltb y x.

(** [max(a, b)] keeps its first argument unless the second is larger;
    [min(a, b)] keeps its first argument unless the second is smaller. *)
Definition py_max (a b : Q) : Q := if Qgtb b a then b else a.
Definition py_min (a b : Q) : Q := if Qltb b a then b else a.

(** [int(x)]: truncation toward zero. *)
Definition py_int (x : Q) : Z := Z.quot (Qnum x) (Zpos (Qden x)).

(** [random.uniform(a, b)] is [a + (b - a) * random()]; the draw [u] of
    [random()] is passed in. *)
Definition uniform (a b u : Q) : Q := a + (b - a) * u.

(** [range(n)] *)
Definition range (n : Z) : list Z := map Z.of_nat (seq 0 (Z.to_nat n)).

(** [a / b] *)
Definition py_div (a b : Q) : outcome Q :=
  if Qeq_bool b 0 then Raise "division by zero" else Return (a / b).

(** [l[i]], negative indices counting from the end. *)
Definition py_index {A} (l : list A) (i : Z) : outcome A :=
  let n := Z.of_nat (length l) in
  let j := if (i <? 0)%Z then (i + n)%Z else i in
  if ((0 <=? j)%Z && (j <? n)%Z)%bool then
    match nth_error l (Z.to_nat j) with
    | Some x => Return x
    | None => Raise "list index out of range"
    end
  else Raise "list index out of range".

(** A number is expected where the value may be [None]. *)
Definition number (x : option Q) : outcome Q :=
  match x with
  | Some q => Return q
  | None => Raise "unsupported operand type: NoneType"
  end.

(** [s.strip()] on ASCII text. *)
Definition is_space (a : ascii) : bool :=
  let n := nat_of_ascii a in
  ((n =? 32)%nat || ((9 <=? n)%nat && (n <=? 13)%nat)
   || ((28 <=? n)%nat && (n <=? 31)%nat))%bool.

Fixpoint lstrip (s : string) : string :=
  match s with
  | EmptyString => EmptyString
  | String a s' => if is_space a then lstrip s' else s
  end.

Fixpoint rstrip (s : string) : string :=
  match s with
  | EmptyString => EmptyString
  | String a s' =>
      match rstrip s' with
      | EmptyString => if is_space a then EmptyString else String a EmptyString
      | r => String a r
      end
  end.

Definition strip (s : string) : string := rstrip (lstrip s).

(** [x or d] on strings: the empty string and [None] are falsy. *)
Definition or_else (x : option string) (d : string) : string :=
  match x with
  | Some (String a r) => String a r
  | _ => d
  end.

(** [os.path.join(a, b)] for a relative, non-empty [a] (POSIX). *)
Definition path_join (a b : string) : string :=
  match b with
  | String "/" _ => b
  | _ => a ++ "/" ++ b
  end.

End Py.
Import Py.

(** ** The motion analyzer *)

Module Motion.

Section Analyzer.

(** A decoded frame, and numpy's
    [np.mean(np.abs(frame1.astype(float) - frame2.astype(float)))]. *)
Variable frame : Type.
Variable mean_abs_diff : frame -> frame -> outcome Q.

(** What the analyzer reads from a video handle. *)
Record VideoClip : Type := {
  duration : outcome (option Q);            (* video_clip.duration *)
  has_get_frame : bool;                     (* hasattr(video_clip, 'get_frame') *)
  reader_present : outcome bool;            (* video_clip.reader is not None *)
  get_frame : Q -> outcome (option frame)   (* video_clip.get_frame(t) *)
}.

(** A moment is a pair [(start, length)]. *)
Definition moment : Type := (Q * Q)%type.

(** The probe of lines 87-95. *)
Definition can_read_frames (v : VideoClip) : bool :=
  if has_get_frame v then
    match reader_present v with
    | Return true =>
        match get_frame v 0 with
        | Return (Some _) => true
        | _ => false
        end
    | _ => false
    end
  else false.

(** The single random segment of lines 99-107 and 133-139; [lo] and [hi]
    are the bounds given to [random.uniform]. *)
Definition fallback_segment (d lo hi u : Q) : list moment :=
  let segment := py_min 4 (d * 0.4) in
  let offset := uniform lo hi u in
  let start := d * offset in
  let start :=
    if Qgtb (start + segment) d then py_max 0 (d - segment - 0.1) else start in
  [(start, segment)].

(** The sampling loop of lines 114-130 over the indices still to visit. *)
Fixpoint sample_loop (v : VideoClip) (d sample_interval : Q) (idx : list Z)
  : list (Q * Q) :=
  match idx with
  | [] => []
  | i :: rest =>
      let time := inject_Z i * sample_interval in
      if Qgtb (time + 1) d then []
      else
        match get_frame v time with
        | Return (Some frame1) =>
            match get_frame v (py_min (time + 0.5) (d - 0.1)) with
            | Return (Some frame2) =>
                match mean_abs_diff frame1 frame2 with
                | Return diff => (time, diff) :: sample_loop v d sample_interval rest
                | Raise _ => sample_loop v d sample_interval rest
                end
            | _ => sample_loop v d sample_interval rest
            end
        | _ => sample_loop v d sample_interval rest
        end
  end.

(** Lines 109-130: the scored samples of a clip of duration [d]. *)
Definition motion_scores (v : VideoClip) (d : Q) : list (Q * Q) :=
  let sample_count := Z.min 15 (py_int d) in
  let sample_interval := d / inject_Z sample_count in
  sample_loop v d sample_interval (range sample_count).

(** The timestamps that the loop visits before it breaks. *)
Fixpoint sample_times (d sample_interval : Q) (idx : list Z) : list Q :=
  match idx with
  | [] => []
  | i :: rest =>
      let time := inject_Z i * sample_interval in
      if Qgtb (time + 1) d then [] else time :: sample_times d sample_interval rest
  end.

(** A fully decodable clip: the probe succeeds, every frame can be read
    and every pair of frames can be compared. *)
Definition decodable (v : VideoClip) : Prop :=
  has_get_frame v = true /\
  reader_present v = Return true /\
  (forall t, exists f, get_frame v t = Return (Some f)) /\
  (forall f1 f2, exists s, mean_abs_diff f1 f2 = Return s).

(** [motion_scores.sort(key=lambda x: x[1], reverse=True)]: a stable sort
    by descending score. *)
Fixpoint insert_desc (x : Q * Q) (l : list (Q * Q)) : list (Q * Q) :=
  match l with
  | [] => [x]
  | y :: l' => if Qgtb (snd y) (snd x) then y :: insert_desc x l' else x :: y :: l'
  end.

Definition sort_desc (l : list (Q * Q)) : list (Q * Q) :=
  fold_right insert_desc [] l.

(** The body of the selection loop, lines 145-154; [drawn] is the value of
    [random.uniform(2.5, 4)]. *)
Definition select_moment (d start_time drawn : Q) : moment :=
  let clip_duration := drawn in
  if Qgtb (start_time + clip_duration) d then
    let clip_duration := d - start_time - 0.1 in
    if Qltb clip_duration 1 then
      let start_time := py_max 0 (d - 4) in
      (start_time, py_min 4 (d - start_time - 0.1))
    else (start_time, clip_duration)
  else (start_time, clip_duration).

(** The selection loop: the [k]-th iteration reads [rand k]. *)
Fixpoint select_moments (d : Q) (rand : nat -> Q) (k : nat)
    (chosen : list (Q * Q)) : list moment :=
  match chosen with
  | [] => []
  | s :: rest =>
      select_moment d (fst s) (uniform 2.5 4 (rand k))
        :: select_moments d rand (S k) rest
  end.

(** [detect_interesting_moments(video_clip, num_clips)]; [rand] is the
    stream of draws of [random()]. *)
Definition detect_interesting_moments (video_clip : option VideoClip)
    (num_clips : Z) (rand : nat -> Q) : list moment :=
  match video_clip with
  | None => [(0, 2)]
  | Some v =>
      match duration v with
      | Raise _ => [(0, 2)]
      | Return None => [(0, 2)]
      | Return (Some d) =>
          if Qle_bool d 0 then [(0, 2)]
          else if Qltb d 2 then [(0, py_min d 2)]
          else if negb (can_read_frames v) then
            fallback_segment d 0.1 0.5 (rand 0%nat)
          else
            match motion_scores v d with
            | [] => fallback_segment d 0.15 0.55 (rand 0%nat)
            | _ =>
                let sorted := sort_desc (motion_scores v d) in
                let n := Z.min num_clips (Z.of_nat (length sorted)) in
                select_moments d rand 0 (firstn (Z.to_nat n) sorted)
            end
      end
  end.

End Analyzer.

Arguments duration {frame} _.
Arguments has_get_frame {frame} _.
Arguments reader_present {frame} _.
Arguments get_frame {frame} _ _.

(** A clip of 10 seconds whose picture changes once, just after the 8th
    second: a frame is its brightness. *)
Definition step_clip : VideoClip Q := {|
  duration := Return (Some 10);
  has_get_frame := true;
  reader_present := Return true;
  get_frame := fun t => Return (Some (if Qle_bool t 8 then 0 else 1))
|}.

Definition brightness_diff (a b : Q) : outcome Q := Return (Qabs (a - b)).

(** A clip of 20 seconds that has no frame reader. *)
Definition opaque_clip : VideoClip Q := {|
  duration := Return (Some 20);
  has_get_frame := true;
  reader_present := Return false;
  get_frame := fun _ => Raise "no reader"
|}.

End Motion.

(** ** The reel pipeline *)

Module Reel.

(** *** Inputs of [create_reel] *)

(** An entry of [video_settings]; [None] is an absent key. *)
Record VideoSetting : Type := {
  vs_order : option Z;
  vs_trim_start : option Q;
  vs_trim_end : option Q;
  vs_filename : option string
}.

(** An entry of [captions]. *)
Record Caption : Type := {
  cap_text : option string;
  cap_startTime : option Q;
  cap_endTime : option Q;
  cap_position : option string;
  cap_color : option string
}.

(** The [text_style] dictionary. *)
Record TextStyle : Type := {
  ts_font : option string;
  ts_fontSize : option Q;
  ts_position : option string;
  ts_color : option string
}.

(** The vertical anchor of a caption: a pixel row, or ['center']. *)
Inductive anchor : Type :=
| AtRow (y : Z)
| Centered.

(** The keyword arguments given to [TextClip], then [with_position] and
    [with_start]. *)
Record TextSpec : Type := {
  tc_text : string;
  tc_font_size : Q;
  tc_color : string;
  tc_stroke_color : string;
  tc_stroke_width : Z;
  tc_duration : Q;
  tc_width : Z;
  tc_font : option string;
  tc_pos : anchor;
  tc_start : Q
}.

(** *** The collaborators: moviepy and the file system *)

Record Media : Type := {
  source : Type;                 (* a [VideoFileClip] *)
  clip : Type;                   (* a clip derived from a source *)
  audio : Type;                  (* an audio clip *)
  path_exists : string -> bool;                          (* os.path.exists *)
  VideoFileClip : string -> outcome (option source);
  source_duration : source -> outcome (option Q);        (* video_clip.duration *)
  source_close : source -> outcome unit;                 (* video_clip.close() *)
  source_eq : source -> source -> outcome bool;          (* kept == video_clip *)
  subclipped : source -> Q -> Q -> outcome clip;         (* moviepy 2 *)
  subclip : source -> Q -> Q -> outcome clip;            (* moviepy 1 *)
  resized : clip -> Z -> outcome clip;                   (* clip.resized(height=...) *)
  has_audio : clip -> bool;                              (* clip.audio is not None *)
  without_audio : clip -> outcome clip;
  clip_w : clip -> Z;
  clip_h : clip -> Z;
  cropped : clip -> Z -> Z -> outcome clip;              (* clip.cropped(x1=, width=) *)
  concatenate_videoclips : list clip -> outcome clip;    (* method="compose" *)
  clip_duration : clip -> option Q;
  import_text : outcome unit;            (* from moviepy import TextClip, ... *)
  resolve_font : string -> outcome (option string);
  TextClip : TextSpec -> outcome clip;
  CompositeVideoClip : list clip -> outcome clip;
  AudioFileClip : string -> outcome audio;
  audio_duration : audio -> option Q;
  concatenate_audioclips : list audio -> outcome audio;
  audio_subclipped : audio -> Q -> Q -> outcome audio;
  fade_in_out : audio -> Q -> outcome audio;             (* AudioFadeIn, AudioFadeOut *)
  multiply_volume : audio -> Q -> outcome audio;
  with_audio : clip -> audio -> outcome clip;
  write_videofile : clip -> string -> outcome unit;
  clip_close : clip -> outcome unit;
  audio_close : audio -> outcome unit
}.

(** [resolve_font] stands for the font lookup of lines 321-347 and the test
    of line 359: it reads the font directory and the platform and yields the
    font file to use, if any. *)

(** *** Effects *)

(** What [create_reel] prints. *)
Inductive line : Type :=
| Processing (i : nat) (video_path : string)
| ErrMissingFile
| ErrLoadNone
| ErrNoDuration
| Duration (d : Q)
| Trimming (trim_start trim_end : Q)
| FullDuration
| ErrTrimTooShort
| SubclipFailed (e : string)
| ErrSubclipNone
| Resizing | Muting | Cropping | Adding
| ErrProcessing (video_path e : string)
| Concatenating (n : nat)
| Concatenated (d : Q)
| ConcatFailed (e : string)
| CaptionAt (text : string) (start_time end_time : Q) (position : string)
| CaptionsAdded (n : nat)
| CaptionsFailed (e : string)
| AddingMusic (music_path : string)
| Looping
| Fading (music_fade : Q)
| FadeFailed (e : string)
| VolumeFailed (e : string)
| MusicAdded
| MusicFailed (e : string)
| Writing (output_path : string)
| Written
| WriteFailed (e : string).

(** The observable steps of a run.  Source handles are named by the
    position of their path in [video_paths]. *)
Inductive event : Type :=
| Print (l : line)
| Open (h : nat)               (* VideoFileClip(video_path) gave handle h *)
| Close (h : nat)              (* close() was called on source handle h *)
| CloseClip                    (* close() was called on a derived clip *)
| CloseAudio                   (* close() was called on an audio clip *)
| WriteVideo (output_path : string).   (* write_videofile was called *)

Section Pipeline.

Variable L : Media.

(** The trace, and the three lists that [create_reel] appends to. *)
Record world : Type := {
  trace : list event;
  clips_to_compile : list (clip L);
  source_clips : list (nat * source L);
  audio_clips : list (audio L)
}.

Definition start_world : world :=
  {| trace := []; clips_to_compile := []; source_clips := []; audio_clips := [] |}.

(** Computations that act on the world and may raise. *)
Definition M (A : Type) : Type := world -> world * outcome A.

Definition ret {A} (a : A) : M A := fun w => (w, Return a).

Definition raise {A} (e : string) : M A := fun w => (w, Raise e).

Definition bind {A B} (m : M A) (k : A -> M B) : M B :=
  fun w =>
    match m w with
    | (w', Return a) => k a w'
    | (w', Raise e) => (w', Raise e)
    end.

(** [try: m except Exception as e: handler e] *)
Definition try_except {A} (m : M A) (handler : string -> M A) : M A :=
  fun w =>
    match m w with
    | (w', Raise e) => handler e w'
    | r => r
    end.

Definition lift {A} (o : outcome A) : M A := fun w => (w, o).

Definition emit (e : event) : M unit :=
  fun w =>
    ({| trace := trace w ++ [e];
        clips_to_compile := clips_to_compile w;
        source_clips := source_clips w;
        audio_clips := audio_clips w |}, Return tt).

Definition print (l : line) : M unit := emit (Print l).

Definition read {A} (f : world -> A) : M A := fun w => (w, Return (f w)).

(** [clips_to_compile.append(c); source_clips.append(video_clip)] *)
Definition append_clip (c : clip L) (h : nat) (video_clip : source L) : M unit :=
  fun w =>
    ({| trace := trace w;
        clips_to_compile := clips_to_compile w ++ [c];
        source_clips := source_clips w ++ [(h, video_clip)];
        audio_clips := audio_clips w |}, Return tt).

(** [audio_clips.append(a)] *)
Definition append_audio (a : audio L) : M unit :=
  fun w =>
    ({| trace := trace w;
        clips_to_compile := clips_to_compile w;
        source_clips := source_clips w;
        audio_clips := audio_clips w ++ [a] |}, Return tt).

End Pipeline.

Arguments trace {L} _.
Arguments clips_to_compile {L} _.
Arguments source_clips {L} _.
Arguments audio_clips {L} _.
Arguments ret {L A} _ _.
Arguments raise {L A} _ _.
Arguments bind {L A B} _ _ _.
Arguments try_except {L A} _ _ _.
Arguments lift {L A} _ _.
Arguments emit {L} _ _.
Arguments print {L} _ _.
Arguments read {L A} _ _.
Arguments append_clip {L} _ _ _ _.
Arguments append_audio {L} _ _.

Notation "x <- m ;; k" := (bind m (fun x => k))
  (at level 20, m at level 99, k at level 200, only parsing).
Notation "m ;; k" := (bind m (fun _ => k))
  (at level 100, k at level 200, right associativity, only parsing).

Section Stages.

Variable L : Media.

(** **** The transform stage *)

(** Lines 167-175: the settings of the entry [order] are filed under the
    path at that position. *)
Fixpoint build_settings_map (video_paths : list string)
    (video_settings : list VideoSetting)
    (settings_map : gmap string VideoSetting)
  : outcome (gmap string VideoSetting) :=
  match video_settings with
  | [] => Return settings_map
  | vs :: rest =>
      match vs_order vs with
      | None => Raise "'order'"
      | Some order =>
          if (order <? Z.of_nat (length video_paths))%Z then
            match py_index video_paths order with
            | Raise e => Raise e
            | Return p =>
                build_settings_map video_paths rest (<[p := vs]> settings_map)
            end
          else build_settings_map video_paths rest settings_map
      end
  end.

(** Lines 201-213: the trim window of a source of the given duration. *)
Definition trim_window (matched : option VideoSetting) (duration : Q) : Q * Q :=
  match matched with
  | Some vs =>
      let trim_start := default 0 (vs_trim_start vs) in
      let trim_end := default duration (vs_trim_end vs) in
      let trim_start := py_max 0 (py_min trim_start duration) in
      let trim_end := py_max (trim_start + 0.5) (py_min trim_end duration) in
      (trim_start, trim_end)
  | None => (0, duration)
  end.

(** Lines 216-217: [clip_duration < 0.5]. *)
Definition trim_too_short (window : Q * Q) : bool :=
  let clip_duration := snd window - fst window in
  Qltb clip_duration 0.5.

(** [_subclip_compat] *)
Definition subclip_compat (video_clip : source L) (start_time end_time : Q)
  : M L (option (clip L)) :=
  match subclipped L video_clip start_time end_time with
  | Return c => ret (Some c)
  | Raise _ =>
      match subclip L video_clip start_time end_time with
      | Return c => ret (Some c)
      | Raise e => print (SubclipFailed e);; ret None
      end
  end.

(** [video_clip.close()] on handle [h]. *)
Definition close_source (h : nat) (video_clip : source L) : M L unit :=
  emit (Close h);; lift (source_close L video_clip).

(** Lines 238-242: the centre crop to 9:16. *)
Definition crop (c : clip L) : M L (clip L) :=
  ratio <- lift (py_div (inject_Z (clip_w L c)) (inject_Z (clip_h L c)));;
  if Qgtb ratio (9 / 16) then
    let target_width := py_int (inject_Z (clip_h L c) * 9 / 16) in
    let x_center := inject_Z (clip_w L c) / 2 in
    let x1 := py_int (x_center - inject_Z target_width / 2) in
    lift (cropped L c x1 target_width)
  else ret c.

(** Lines 192-246, once [video_clip] is bound to a handle. *)
Definition process_source (settings_map : gmap string VideoSetting)
    (mute_videos : bool) (h : nat) (video_path : string)
    (video_clip : source L) : M L unit :=
  duration <- lift (source_duration L video_clip);;
  match duration with
  | None => print ErrNoDuration;; close_source h video_clip
  | Some duration =>
      if Qle_bool duration 0 then print ErrNoDuration;; close_source h video_clip
      else
        print (Duration duration);;
        let matched := settings_map !! video_path in
        let window := trim_window matched duration in
        print (match matched with
               | Some _ => Trimming (fst window) (snd window)
               | None => FullDuration
               end);;
        if trim_too_short window then
          print ErrTrimTooShort;; close_source h video_clip
        else
          c <- subclip_compat video_clip (fst window) (snd window);;
          match c with
          | None => print ErrSubclipNone;; close_source h video_clip
          | Some c =>
              print Resizing;;
              c <- lift (resized L c 720);;
              c <- (if (mute_videos && has_audio L c)%bool
                    then print Muting;; lift (without_audio L c)
                    else ret c);;
              print Cropping;;
              c <- crop c;;
              print Adding;;
              append_clip c h video_clip
          end
  end.

(** [video_clip in source_clips]: an entry matches when it is the same
    object or compares equal; a raising comparison ends the search. *)
Fixpoint py_in (h : nat) (video_clip : source L) (kept : list (nat * source L))
  : outcome bool :=
  match kept with
  | [] => Return false
  | (h', s') :: rest =>
      if Nat.eqb h' h then Return true
      else
        match source_eq L s' video_clip with
        | Raise e => Raise e
        | Return true => Return true
        | Return false => py_in h video_clip rest
        end
  end.

(** The handler of lines 248-256, for an exception raised while
    [video_clip] is bound to handle [h] (a clip object is truthy). *)
Definition on_error (h : nat) (video_path : string) (video_clip : source L)
    (e : string) : M L unit :=
  print (ErrProcessing video_path e);;
  kept <- read source_clips;;
  present <- lift (py_in h video_clip kept);;
  if negb present then
    try_except (close_source h video_clip) (fun _ => ret tt)
  else ret tt.

(** One iteration of the loop of line 177.  When [VideoFileClip] raises,
    [video_clip] is still [None] in the handler, which then only prints. *)
Definition transform_one (settings_map : gmap string VideoSetting)
    (mute_videos : bool) (i : nat) (video_path : string) : M L unit :=
  print (Processing (i + 1) video_path);;
  if negb (path_exists L video_path) then print ErrMissingFile
  else
    match VideoFileClip L video_path with
    | Raise e => print (ErrProcessing video_path e)
    | Return None => print ErrLoadNone
    | Return (Some video_clip) =>
        emit (Open i);;
        try_except (process_source settings_map mute_videos i video_path video_clip)
                   (on_error i video_path video_clip)
    end.

Fixpoint transform_stage (settings_map : gmap string VideoSetting)
    (mute_videos : bool) (i : nat) (video_paths : list string) : M L unit :=
  match video_paths with
  | [] => ret tt
  | video_path :: rest =>
      transform_one settings_map mute_videos i video_path;;
      transform_stage settings_map mute_videos (S i) rest
  end.

(** The release loops: every [close()] is tried, failures are ignored. *)
Fixpoint close_sources (l : list (nat * source L)) : M L unit :=
  match l with
  | [] => ret tt
  | (h, s) :: rest =>
      try_except (close_source h s) (fun _ => ret tt);; close_sources rest
  end.

Fixpoint close_clips (l : list (clip L)) : M L unit :=
  match l with
  | [] => ret tt
  | c :: rest =>
      try_except (emit CloseClip;; lift (clip_close L c)) (fun _ => ret tt);;
      close_clips rest
  end.

Fixpoint close_audios (l : list (audio L)) : M L unit :=
  match l with
  | [] => ret tt
  | a :: rest =>
      try_except (emit CloseAudio;; lift (audio_close L a)) (fun _ => ret tt);;
      close_audios rest
  end.

End Stages.

Section Composition.

Variable L : Media.

(** **** The caption stage *)

(** Lines 298-307: the clamped times of a caption on a timeline of the
    given duration. *)
Definition caption_times (cap : Caption) (duration : Q) : Q * Q :=
  let start_time := default 0 (cap_startTime cap) in
  let end_time := default 3 (cap_endTime cap) in
  let start_time := py_max 0 (py_min start_time duration) in
  let end_time := py_max (start_time + 0.1) (py_min end_time duration) in
  (start_time, end_time).

(** Lines 310-315: [position_map.get(position, ...)]. *)
Definition position_anchor (position : string) (final_h : Z) : anchor :=
  if String.eqb position "top" then AtRow 100
  else if String.eqb position "center" then Centered
  else AtRow (final_h - 150).

(** Line 318 *)
Definition stroke_for (color : string) : string :=
  if (String.eqb color "white" || String.eqb color "yellow")%bool
  then "black" else "white".

(** The overlay built for one caption with non-blank text. *)
Definition caption_spec (style : TextStyle) (final_w final_h : Z) (duration : Q)
    (font_to_use : option string) (text : string) (cap : Caption) : TextSpec :=
  let position := or_else (cap_position cap) (default "bottom" (ts_position style)) in
  let color := or_else (cap_color cap) (default "white" (ts_color style)) in
  let times := caption_times cap duration in
  {| tc_text := text;
     tc_font_size := default 70 (ts_fontSize style);
     tc_color := color;
     tc_stroke_color := stroke_for color;
     tc_stroke_width := 3;
     tc_duration := snd times - fst times;
     tc_width := (final_w - 100)%Z;
     tc_font := font_to_use;
     tc_pos := position_anchor position final_h;
     tc_start := fst times |}.

(** The loop of lines 293-367. *)
Fixpoint caption_loop (style : TextStyle) (final_clip : clip L)
    (captions : list Caption) (caption_clips : list (clip L))
  : M L (list (clip L)) :=
  match captions with
  | [] => ret caption_clips
  | cap :: rest =>
      let text := strip (default "" (cap_text cap)) in
      match text with
      | EmptyString => caption_loop style final_clip rest caption_clips
      | _ =>
          duration <- lift (number (clip_duration L final_clip));;
          font_to_use <- lift (resolve_font L (default "Arial" (ts_font style)));;
          let spec := caption_spec style (clip_w L final_clip) (clip_h L final_clip)
                                   duration font_to_use text cap in
          txt_clip <- lift (TextClip L spec);;
          print (CaptionAt (substring 0 30 text)
                           (fst (caption_times cap duration))
                           (snd (caption_times cap duration))
                           (or_else (cap_position cap)
                                    (default "bottom" (ts_position style))));;
          caption_loop style final_clip rest (caption_clips ++ [txt_clip])
      end
  end.

Definition empty_style : TextStyle :=
  {| ts_font := None; ts_fontSize := None; ts_position := None; ts_color := None |}.

(** The guarded block of lines 282-371. *)
Definition add_captions (final_clip : clip L) (captions : list Caption)
    (text_style : option TextStyle) : M L (clip L) :=
  lift (import_text L);;
  let style := default empty_style text_style in
  caption_clips <- caption_loop style final_clip captions [];;
  match caption_clips with
  | [] => ret final_clip
  | _ =>
      composed <- lift (CompositeVideoClip L (final_clip :: caption_clips));;
      print (CaptionsAdded (length caption_clips));;
      ret composed
  end.

(** Lines 281-374 *)
Definition caption_stage (final_clip : clip L) (captions : list Caption)
    (text_style : option TextStyle) : M L (clip L) :=
  match captions with
  | [] => ret final_clip
  | _ =>
      try_except (add_captions final_clip captions text_style)
                 (fun e => print (CaptionsFailed e);; ret final_clip)
  end.

(** **** The audio mixer *)

(** Line 385 *)
Definition loops_needed (final_duration music_duration : Q) : outcome Z :=
  match py_div final_duration music_duration with
  | Raise e => Raise e
  | Return q => Return (py_int q + 1)%Z
  end.

(** Lines 383-389: loop or truncate the track to the timeline. *)
Definition fit_music (music_clip : audio L) (final_clip : clip L) : M L (audio L) :=
  music_duration <- lift (number (audio_duration L music_clip));;
  final_duration <- lift (number (clip_duration L final_clip));;
  if Qltb music_duration final_duration then
    print Looping;;
    n <- lift (loops_needed final_duration music_duration);;
    looped <- lift (concatenate_audioclips L (repeat music_clip (Z.to_nat n)));;
    music_clip <- lift (audio_subclipped L looped 0 final_duration);;
    append_audio music_clip;;
    ret music_clip
  else
    lift (audio_subclipped L music_clip 0 final_duration).

(** Lines 392-399 *)
Definition apply_fade (music_clip : audio L) (music_fade : Q) : M L (audio L) :=
  if Qgtb music_fade 0 then
    print (Fading music_fade);;
    try_except (lift (fade_in_out L music_clip music_fade))
               (fun fade_error => print (FadeFailed fade_error);; ret music_clip)
  else ret music_clip.

(** Lines 402-406 *)
Definition apply_volume (music_clip : audio L) : M L (audio L) :=
  try_except (lift (multiply_volume L music_clip 0.3))
             (fun vol_error => print (VolumeFailed vol_error);; ret music_clip).

(** The guarded block of lines 379-408. *)
Definition add_music (final_clip : clip L) (music_path : string)
    (music_fade : Q) : M L (clip L) :=
  print (AddingMusic music_path);;
  music_clip <- lift (AudioFileClip L music_path);;
  append_audio music_clip;;
  music_clip <- fit_music music_clip final_clip;;
  music_clip <- apply_fade music_clip music_fade;;
  music_clip <- apply_volume music_clip;;
  mixed <- lift (with_audio L final_clip music_clip);;
  print MusicAdded;;
  ret mixed.

(** Lines 377-411 *)
Definition music_stage (final_clip : clip L) (music_path : option string)
    (music_fade : Q) : M L (clip L) :=
  match music_path with
  | Some (String a r) =>
      let music_path := String a r in
      if path_exists L music_path then
        try_except (add_music final_clip music_path music_fade)
                   (fun e => print (MusicFailed e);; ret final_clip)
      else ret final_clip
  | _ => ret final_clip
  end.

(** **** The writer *)

Definition OUTPUT_FOLDER : string := "outputs".

(** Lines 413-462 *)
Definition write_stage (final_clip : clip L) (output_filename : string)
  : M L string :=
  let output_path := path_join OUTPUT_FOLDER output_filename in
  print (Writing output_path);;
  try_except
    (emit (WriteVideo output_path);;
     lift (write_videofile L final_clip output_path);;
     print Written)
    (fun e =>
       print (WriteFailed e);;
       kept <- read source_clips;;
       close_sources L kept;;
       tracks <- read audio_clips;;
       close_audios L tracks;;
       raise e);;
  emit CloseClip;;
  lift (clip_close L final_clip);;
  clips <- read clips_to_compile;;
  close_clips L clips;;
  kept <- read source_clips;;
  close_sources L kept;;
  tracks <- read audio_clips;;
  close_audios L tracks;;
  ret output_path.

Definition no_clips_message : string := "No clips could be extracted from any video".

(** Lines 267-278 *)
Definition concatenate (clips : list (clip L)) : M L (clip L) :=
  print (Concatenating (length clips));;
  try_except
    (final_clip <- lift (concatenate_videoclips L clips);;
     d <- lift (number (clip_duration L final_clip));;
     print (Concatenated d);;
     ret final_clip)
    (fun e =>
       print (ConcatFailed e);;
       kept <- read source_clips;;
       close_sources L kept;;
       raise e).

(** [create_reel] *)
Definition create_reel (video_paths : list string)
    (video_settings : list VideoSetting) (captions : list Caption)
    (music_path : option string) (mute_videos : bool)
    (text_style : option TextStyle) (music_fade : Q)
    (output_filename : string) : M L string :=
  settings_map <- lift (build_settings_map video_paths video_settings ∅);;
  transform_stage L settings_map mute_videos 0 video_paths;;
  clips <- read clips_to_compile;;
  match clips with
  | [] =>
      kept <- read source_clips;;
      close_sources L kept;;
      raise no_clips_message
  | _ =>
      final_clip <- concatenate clips;;
      final_clip <- caption_stage final_clip captions text_style;;
      final_clip <- music_stage final_clip music_path music_fade;;
      write_stage final_clip output_filename
  end.

End Composition.

Arguments trim_too_short _ /.

(** *** Reading a trace *)

(** The source handles that are open at the end of a trace, given those open
    at its start: [Open] adds a handle, [Close] releases it. *)
Fixpoint open_handles (t : list event) (opened : list nat) : list nat :=
  match t with
  | [] => opened
  | Open h :: t' => open_handles t' (h :: opened)
  | Close h :: t' =>
      open_handles t' (List.filter (fun h' => negb (Nat.eqb h' h)) opened)
  | _ :: t' => open_handles t' opened
  end.

(** The paths given to [write_videofile] in a trace. *)
Fixpoint written (t : list event) : list string :=
  match t with
  | [] => []
  | WriteVideo p :: t' => p :: written t'
  | _ :: t' => written t'
  end.

(** The invariant of the transform loop: as long as [source_clips] is empty
    no handle is left open, the two lists grow together, and nothing has
    been written. *)
Definition stage_inv {L : Media} (w : world L) : Prop :=
  (source_clips w = [] -> open_handles (trace w) [] = []) /\
  length (clips_to_compile w) = length (source_clips w) /\
  written (trace w) = [].

(** [w'] continues the trace of [w]. *)
Definition extends {L : Media} (w w' : world L) : Prop :=
  exists evs, trace w' = trace w ++ evs.

(** *** What the mixer expects of moviepy *)

(** Concatenating [n >= 1] copies of a track of duration [d] gives a track
    of duration [n * d]. *)
Definition concat_contract (L : Media) : Prop :=
  forall (a : audio L) (d : Q) (n : nat),
    audio_duration L a = Some d -> (1 <= n)%nat ->
    exists looped d',
      concatenate_audioclips L (repeat a n) = Return looped /\
      audio_duration L looped = Some d' /\ d' == inject_Z (Z.of_nat n) * d.

(** Cutting a track of duration [d] at [0 <= e <= d] gives a track of
    duration [e]. *)
Definition subclip_contract (L : Media) : Prop :=
  forall (a : audio L) (d e : Q),
    audio_duration L a = Some d -> 0 <= e <= d ->
    exists cut d',
      audio_subclipped L a 0 e = Return cut /\
      audio_duration L cut = Some d' /\ d' == e.

(** *** A small studio

    Sources and tracks are known by their duration, clips by the window
    they show.  Every video lasts 10 s, except that [missing.mp4] does not
    exist and [broken.mp4] cannot be opened; every track lasts 3 s, except
    that [noise.mp3] cannot be decoded.  Text rendering, fading and volume
    control are not installed. *)
Definition studio : Media := {|
  source := Q;
  clip := Q * Q;
  audio := Q;
  path_exists := fun p => negb (String.eqb p "missing.mp4");
  VideoFileClip := fun p =>
    if String.eqb p "broken.mp4" then Raise "moov atom not found"
    else Return (Some 10);
  source_duration := fun s => Return (Some s);
  source_close := fun _ => Return tt;
  source_eq := fun a b => Return (Qeq_bool a b);
  subclipped := fun s a b =>
    if Qle_bool b s then Return (a, b) else Raise "end_time beyond the clip";
  subclip := fun _ _ _ => Raise "no attribute subclip";
  resized := fun c _ => Return c;
  has_audio := fun _ => true;
  without_audio := fun c => Return c;
  clip_w := fun _ => 405%Z;
  clip_h := fun _ => 720%Z;
  cropped := fun c _ _ => Return c;
  concatenate_videoclips := fun l =>
    Return (0, fold_right (fun c acc => (snd c - fst c) + acc) 0 l);
  clip_duration := fun c => Some (snd c - fst c);
  import_text := Return tt;
  resolve_font := fun _ => Return None;
  TextClip := fun _ => Raise "text renderer not found";
  CompositeVideoClip := fun l =>
    match l with
    | c :: _ => Return c
    | [] => Raise "no clips"
    end;
  AudioFileClip := fun p =>
    if String.eqb p "noise.mp3" then Raise "could not decode" else Return 3;
  audio_duration := fun a => Some a;
  concatenate_audioclips := fun l => Return (fold_right Qplus 0 l);
  audio_subclipped := fun a s e =>
    if Qle_bool e a then Return (e - s) else Raise "end_time beyond the clip";
  fade_in_out := fun _ _ => Raise "no module AudioFadeIn";
  multiply_volume := fun _ _ => Raise "cannot import multiply_volume";
  with_audio := fun c _ => Return c;
  write_videofile := fun _ _ => Return tt;
  clip_close := fun _ => Return tt;
  audio_close := fun _ => Return tt
|}.

(** Settings that ask for the window from 5 s to 5.2 s of the first video. *)
Definition narrow_setting : VideoSetting :=
  {| vs_order := Some 0%Z; vs_trim_start := Some 5; vs_trim_end := Some 5.2;
     vs_filename := Some "a.mp4" |}.

(** Settings that ask for the last 0.2 s of the first video. *)
Definition tail_setting : VideoSetting :=
  {| vs_order := Some 0%Z; vs_trim_start := Some 9.8; vs_trim_end := Some 10;
     vs_filename := Some "a.mp4" |}.

(** A caption placed at the very end of a 5 s timeline. *)
Definition late_caption : Caption :=
  {| cap_text := Some "The end"; cap_startTime := Some 5; cap_endTime := Some 6;
     cap_position := None; cap_color := None |}.

End Reel.

(** ** The job registry and the polling endpoint *)

Module Jobs.

Import Reel.

(** A JSON value of a result payload. *)
Inductive json : Type :=
| JStr (s : string)
| JBool (b : bool).

(** The two global dictionaries. *)
Record jobs : Type := {
  job_status : gmap string string;
  job_results : gmap string (gmap string json)
}.

Definition download_url (session_id : string) : string := "/download/" ++ session_id.

(** [create_reel_async]: runs the pipeline from a fresh world and records
    the terminal state.  The final world is returned for inspection. *)
Definition create_reel_async (L : Media) (session_id : string)
    (video_paths : list string) (video_settings : list VideoSetting)
    (captions : list Caption) (music_path : option string) (mute_videos : bool)
    (text_style : option TextStyle) (music_fade : Q) (output_filename : string)
    (j : jobs) : world L * jobs :=
  match create_reel L video_paths video_settings captions music_path mute_videos
                    text_style music_fade output_filename (start_world L) with
  | (w, Return output_path) =>
      (w, {| job_status := <[session_id := "completed"]> (job_status j);
             job_results :=
               <[session_id := {[ "success" := JBool true;
                                  "download_url" := JStr (download_url session_id) ]}]>
                 (job_results j) |})
  | (w, Raise e) =>
      (w, {| job_status := <[session_id := "failed"]> (job_status j);
             job_results :=
               <[session_id := {[ "error" := JStr e ]}]> (job_results j) |})
  end.

(** [{'status': s, **result}]: the keys of [result] win. *)
Definition with_status (s : string) (result : gmap string json) : gmap string json :=
  result ∪ {[ "status" := JStr s ]}.

(** [check_status]: the JSON body of the response and the maps after the
    call.  [path_exists] is [os.path.exists]. *)
Definition check_status (path_exists : string -> bool) (session_id : string)
    (j : jobs) : gmap string json * jobs :=
  let status := default "unknown" (job_status j !! session_id) in
  if String.eqb status "completed" then
    let result := default ∅ (job_results j !! session_id) in
    (with_status "completed" result,
     {| job_status := delete session_id (job_status j);
        job_results := delete session_id (job_results j) |})
  else if String.eqb status "failed" then
    let result := default {[ "error" := JStr "Unknown error" ]}
                          (job_results j !! session_id) in
    (with_status "failed" result,
     {| job_status := delete session_id (job_status j);
        job_results := delete session_id (job_results j) |})
  else if String.eqb status "processing" then
    ({[ "status" := JStr "processing" ]}, j)
  else
    let output_path := path_join OUTPUT_FOLDER (session_id ++ ".mp4") in
    if path_exists output_path then
      ({[ "status" := JStr "completed";
          "download_url" := JStr (download_url session_id) ]}, j)
    else ({[ "status" := JStr "not_found" ]}, j).

(** The answer to a poll on an id that has no status record. *)
Definition absent_answer (path_exists : string -> bool) (session_id : string)
  : gmap string json :=
  if path_exists (path_join OUTPUT_FOLDER (session_id ++ ".mp4"))
  then {[ "status" := JStr "completed";
          "download_url" := JStr (download_url session_id) ]}
  else {[ "status" := JStr "not_found" ]}.

(** A registry that holds one completed and one running job. *)
Definition two_jobs : jobs :=
  {| job_status := {[ "a1" := "completed"; "b2" := "processing" ]};
     job_results :=
       {[ "a1" := {[ "success" := JBool true;
                     "download_url" := JStr (download_url "a1") ]} ]} |}.

End Jobs.

(** ** File-name filters *)

Module Files.

(** [c.lower()] on an ASCII character. *)
Definition lower_char (c : ascii) : ascii :=
  let n := nat_of_ascii c in
  if ((65 <=? n)%nat && (n <=? 90)%nat)%bool then ascii_of_nat (n + 32) else c.

(** [s.lower()] on ASCII text. *)
Fixpoint lower (s : string) : string :=
  match s with
  | EmptyString => EmptyString
  | String c rest => String (lower_char c) (lower rest)
  end.

(** ['.' in filename] *)
Fixpoint has_dot (s : string) : bool :=
  match s with
  | EmptyString => false
  | String c rest => (Ascii.eqb c "." || has_dot rest)%bool
  end.

(** [filename.rsplit('.', 1)]: the text before and after the last dot, or
    [None] when there is no dot (the list then has one element). *)
Fixpoint rsplit_dot (s : string) : option (string * string) :=
  match s with
  | EmptyString => None
  | String c rest =>
      match rsplit_dot rest with
      | Some (head, tail) => Some (String c head, tail)
      | None => if Ascii.eqb c "." then Some (EmptyString, rest) else None
      end
  end.

Definition ALLOWED_EXTENSIONS : list string :=
  ["mp4"; "mov"; "avi"; "mkv"; "MOV"; "MP4"].

Definition ALLOWED_MUSIC_EXTENSIONS : list string :=
  ["mp3"; "wav"; "aac"; "m4a"; "ogg"; "flac"].

(** [x in s] for a set of strings. *)
Definition in_set (x : string) (s : list string) : bool :=
  existsb (String.eqb x) s.

(** The shared body of [allowed_file] and [allowed_music_file]; the index
    [[1]] is only evaluated when the name has a dot. *)
Definition extension_in (filename : string) (allowed : list string) : bool :=
  (has_dot filename &&
   match rsplit_dot filename with
   | Some (_, ext) => in_set (lower ext) allowed
   | None => false
   end)%bool.

Definition allowed_file (filename : string) : bool :=
  extension_in filename ALLOWED_EXTENSIONS.

Definition allowed_music_file (filename : string) : bool :=
  extension_in filename ALLOWED_MUSIC_EXTENSIONS.

End Files.

(** ** Reading runs of the pipeline *)

Module Runs.

Import Reel.

Definition is_print (e : event) : bool :=
  match e with
  | Print _ => true
  | _ => false
  end.

(** [w'] is [w] after the events [evs]; the clip and source lists are the
    same. *)
Definition adds {L : Media} (w w' : world L) (evs : list event) : Prop :=
  trace w' = trace w ++ evs /\
  clips_to_compile w' = clips_to_compile w /\
  source_clips w' = source_clips w.

(** A computation that only prints (it may still append to [audio_clips]). *)
Definition quiet {L : Media} {A : Type} (m : M L A) : Prop :=
  forall w, exists evs, adds w (fst (m w)) evs /\ forallb is_print evs = true.

(** The [close()] calls of a release loop over [source_clips]. *)
Definition closes {L : Media} (l : list (nat * source L)) : list event :=
  map (fun x => Close (fst x)) l.

(** Every handle that is still open is kept in [source_clips], and nothing
    has been written. *)
Definition tracked {L : Media} (w : world L) : Prop :=
  incl (open_handles (trace w) []) (map fst (source_clips w)) /\
  written (trace w) = [].

(** Distinct clip objects never compare equal (the default of Python
    objects, and of moviepy 1). *)
Definition identity_eq (L : Media) : Prop :=
  forall a b : source L, source_eq L a b = Return false.

(** How a run of [create_reel] can end, once the settings map is built and
    the transform stage has returned in the world [w1]: [evs] are the lines
    printed by the later stages, [p] is the output path. *)
Inductive run_end {L : Media} (w1 : world L) (p : string)
  : world L -> outcome string -> Prop :=
| end_no_clips (w : world L) :
    clips_to_compile w1 = [] ->
    trace w = trace w1 ++ closes (source_clips w1) ->
    run_end w1 p w (Raise no_clips_message)
| end_concat_failed (w : world L) (evs : list event) (e : string) :
    forallb is_print evs = true ->
    trace w = trace w1 ++ evs ++ closes (source_clips w1) ->
    run_end w1 p w (Raise e)
| end_written (w : world L) (evs : list event) (k a : nat) :
    forallb is_print evs = true ->
    trace w = trace w1 ++ evs
                ++ [Print (Writing p); WriteVideo p; Print Written; CloseClip]
                ++ repeat CloseClip k ++ closes (source_clips w1)
                ++ repeat CloseAudio a ->
    run_end w1 p w (Return p)
| end_write_failed (w : world L) (evs : list event) (a : nat) (e : string) :
    forallb is_print evs = true ->
    trace w = trace w1 ++ evs
                ++ [Print (Writing p); WriteVideo p; Print (WriteFailed e)]
                ++ closes (source_clips w1) ++ repeat CloseAudio a ->
    run_end w1 p w (Raise e)
| end_close_failed (w : world L) (evs : list event) (e : string) :
    forallb is_print evs = true ->
    source_clips w1 <> [] ->
    trace w = trace w1 ++ evs
                ++ [Print (Writing p); WriteVideo p; Print Written; CloseClip] ->
    run_end w1 p w (Raise e).

(** The source kept under handle [h] was loaded from the [h]-th path. *)
Definition from_path (L : Media) (video_paths : list string)
    (kept : nat * source L) : Prop :=
  exists p,
    nth_error video_paths (fst kept) = Some p /\
    path_exists L p = true /\
    VideoFileClip L p = Return (Some (snd kept)).

(** The collaborators [L] with another equality of sources and another
    audio decoder. *)
Definition override (L : Media)
    (eq : source L -> source L -> outcome bool)
    (decode : string -> outcome (audio L)) : Media := {|
  source := source L;
  clip := clip L;
  audio := audio L;
  path_exists := path_exists L;
  VideoFileClip := VideoFileClip L;
  source_duration := source_duration L;
  source_close := source_close L;
  source_eq := eq;
  subclipped := subclipped L;
  subclip := subclip L;
  resized := resized L;
  has_audio := has_audio L;
  without_audio := without_audio L;
  clip_w := clip_w L;
  clip_h := clip_h L;
  cropped := cropped L;
  concatenate_videoclips := concatenate_videoclips L;
  clip_duration := clip_duration L;
  import_text := import_text L;
  resolve_font := resolve_font L;
  TextClip := TextClip L;
  CompositeVideoClip := CompositeVideoClip L;
  AudioFileClip := decode;
  audio_duration := audio_duration L;
  concatenate_audioclips := concatenate_audioclips L;
  audio_subclipped := audio_subclipped L;
  fade_in_out := fade_in_out L;
  multiply_volume := multiply_volume L;
  with_audio := with_audio L;
  write_videofile := write_videofile L;
  clip_close := clip_close L;
  audio_close := audio_close L
|}.

(** The studio with object identity as the equality of sources. *)
Definition plain_studio : Media :=
  override studio (fun _ _ => Return false) (AudioFileClip studio).

(** The studio where every track decodes to an empty one. *)
Definition silent_studio : Media :=
  override studio (source_eq studio) (fun _ => Return 0).

(** A moment lies within a clip of duration [d]. *)
Definition fits (d : Q) (m : Q * Q) : Prop :=
  0 <= fst m /\ 0 < snd m /\ snd m <= 4 /\ fst m + snd m <= d.

(** The order of a settings entry can be used by [create_reel] against [n]
    paths: the key is present and the index is not below [-n]. *)
Definition usable_order (n : nat) (vs : VideoSetting) : Prop :=
  exists order, vs_order vs = Some order /\ (- Z.of_nat n <= order)%Z.

End Runs.

(** ** The render endpoint *)

Module Endpoint.

Import Reel Jobs Files.

(** The JSON body of a render request, a JSON object; [None] is an absent
    key. *)
Record Request : Type := {
  rq_session_id : option string;
  rq_video_settings : list VideoSetting;     (* data.get('video_settings', []) *)
  rq_captions : list Caption;                (* data.get('captions', []) *)
  rq_music_source : option string;
  rq_music_path : option string;
  rq_text_style : option TextStyle;
  rq_mute_videos : bool;                     (* data.get('mute_videos', False) *)
  rq_music_fade : option Q
}.

(** What the endpoint reads from the file system. *)
Record Storage : Type := {
  st_exists : string -> bool;                (* os.path.exists *)
  st_listdir : string -> list string         (* os.listdir *)
}.

(** The arguments given to the worker thread, [create_reel_async]. *)
Record Launch : Type := {
  l_session_id : string;
  l_video_paths : list string;
  l_video_settings : list VideoSetting;
  l_captions : list Caption;
  l_music_path : option string;
  l_mute_videos : bool;
  l_text_style : option TextStyle;
  l_music_fade : Q;
  l_output_filename : string
}.

Definition UPLOAD_FOLDER : string := "uploads".

(** ['/' in s] *)
Fixpoint has_slash (s : string) : bool :=
  match s with
  | EmptyString => false
  | String c rest => (Ascii.eqb c "/" || has_slash rest)%bool
  end.

Fixpoint ends_with_slash (s : string) : bool :=
  match s with
  | EmptyString => false
  | String c EmptyString => Ascii.eqb c "/"
  | String _ rest => ends_with_slash rest
  end.

(** [os.path.join(a, b)] (POSIX). *)
Definition os_path_join (a b : string) : string :=
  match b with
  | String "/" _ => b
  | _ =>
      match a with
      | EmptyString => b
      | _ => if ends_with_slash a then a ++ b else a ++ "/" ++ b
      end
  end.

(** [os.path.basename(p)]: the text after the last slash. *)
Fixpoint basename (p : string) : string :=
  match p with
  | EmptyString => EmptyString
  | String c rest =>
      if has_slash rest then basename rest
      else if Ascii.eqb c "/" then rest else p
  end.

(** [x.get('order', 0)] *)
Definition order_key (vs : VideoSetting) : Z := default 0%Z (vs_order vs).

(** [sorted(video_settings, key=lambda x: x.get('order', 0))]: a stable
    sort by ascending key. *)
Fixpoint insert_by_order (x : VideoSetting) (l : list VideoSetting)
  : list VideoSetting :=
  match l with
  | [] => [x]
  | y :: l' =>
      if (order_key y <? order_key x)%Z then y :: insert_by_order x l'
      else x :: y :: l'
  end.

Definition sorted_by_order (l : list VideoSetting) : list VideoSetting :=
  fold_right insert_by_order [] l.

(** The loop of lines 586-592: the first file with the entry's base name,
    for each entry that names an uploaded file. *)
Fixpoint order_files (video_files : list string)
    (sorted_settings : list VideoSetting) : list string :=
  match sorted_settings with
  | [] => []
  | vs :: rest =>
      let filename := default "" (vs_filename vs) in
      if in_set filename (map basename video_files) then
        match List.filter (fun f => String.eqb (basename f) filename) video_files with
        | filepath :: _ => filepath :: order_files video_files rest
        | [] => order_files video_files rest
        end
      else order_files video_files rest
  end.

(** The video files of a session folder, in listing order (line 569). *)
Definition listed_files (S : Storage) (session_folder : string) : list string :=
  map (os_path_join session_folder)
      (List.filter allowed_file (st_listdir S session_folder)).

(** The files handed to the worker (lines 576-596). *)
Definition chosen_files (video_files : list string)
    (video_settings : list VideoSetting) : list string :=
  match video_settings with
  | [] => video_files
  | _ =>
      match order_files video_files (sorted_by_order video_settings) with
      | [] => video_files
      | ordered_files => ordered_files
      end
  end.

Definition error_body (msg : string) : gmap string json := {[ "error" := JStr msg ]}.

(** [create_reel_endpoint]: the status code and JSON body of the response,
    the registry after the call, and the job handed to a new thread, if
    any.  The lines that the ordering loop prints are not part of the
    result.  [settings_map] of lines 580, 592 and 598 is never read. *)
Definition create_reel_endpoint (S : Storage) (data : Request) (j : jobs)
  : (Z * gmap string json) * jobs * option Launch :=
  match rq_session_id data with
  | Some (String a r) =>
      let session_id := String a r in
      let session_folder := os_path_join UPLOAD_FOLDER session_id in
      if negb (st_exists S session_folder) then
        ((404%Z, error_body "Session not found"), j, None)
      else
        let video_files := listed_files S session_folder in
        match video_files with
        | [] => ((400%Z, error_body "No videos found"), j, None)
        | _ =>
            let video_files := chosen_files video_files (rq_video_settings data) in
            let start (final_music_path : option string) :=
              (((200%Z, {[ "success" := JBool true;
                           "status" := JStr "processing";
                           "session_id" := JStr session_id ]}),
                {| job_status := <[session_id := "processing"]> (job_status j);
                   job_results := job_results j |}),
               Some {| l_session_id := session_id;
                       l_video_paths := video_files;
                       l_video_settings := rq_video_settings data;
                       l_captions := rq_captions data;
                       l_music_path := final_music_path;
                       l_mute_videos := rq_mute_videos data;
                       l_text_style := rq_text_style data;
                       l_music_fade := default 2 (rq_music_fade data);
                       l_output_filename := session_id ++ ".mp4" |}) in
            match rq_music_source data, rq_music_path data with
            | Some source, Some (String b s) =>
                if String.eqb source "local" then
                  if st_exists S (String b s) then start (Some (String b s))
                  else ((400%Z, error_body "Music file not found"), j, None)
                else start None
            | _, _ => start None
            end
        end
  | _ => ((400%Z, error_body "No session ID"), j, None)
  end.

(** The worker thread: [create_reel_async] on the launched arguments. *)
Definition run_launch (L : Media) (l : Launch) (j : jobs) : world L * jobs :=
  create_reel_async L (l_session_id l) (l_video_paths l) (l_video_settings l)
                    (l_captions l) (l_music_path l) (l_mute_videos l)
                    (l_text_style l) (l_music_fade l) (l_output_filename l) j.

(** A session folder with two videos and a text file. *)
Definition shelf : Storage := {|
  st_exists := fun p => String.eqb p "uploads/s1";
  st_listdir := fun _ => ["b.mp4"; "notes.txt"; "a.MOV"]
|}.

(** A request that puts [a.MOV] first and trims it. *)
Definition swap_request : Request := {|
  rq_session_id := Some "s1";
  rq_video_settings :=
    [ {| vs_order := Some 1%Z; vs_trim_start := None; vs_trim_end := None;
         vs_filename := Some "b.mp4" |};
      {| vs_order := Some 0%Z; vs_trim_start := Some 1; vs_trim_end := Some 4;
         vs_filename := Some "a.MOV" |} ];
  rq_captions := [];
  rq_music_source := None;
  rq_music_path := None;
  rq_text_style := None;
  rq_mute_videos := false;
  rq_music_fade := None
|}.

End Endpoint.

Import Motion Reel Jobs.

(** * Facts *)

(** ** Comparisons, [min] and [max] *)

Lemma Qltb_true (x y : Q) : Qltb x y = true <-> x < y.
Proof.
  unfold Qltb. rewrite negb_true_iff.
  split; intros H.
  - apply Qnot_le_lt. intros Hle. apply Qle_bool_iff in Hle. congruence.
  - destruct (Qle_bool y x) eqn:E; [|reflexivity].
    apply Qle_bool_iff in E. lra.
Qed.

Lemma Qltb_false (x y : Q) : Qltb x y = false <-> y <= x.
Proof.
  unfold Qltb. rewrite negb_false_iff. apply Qle_bool_iff.
Qed.

Lemma Qle_bool_false (x y : Q) : Qle_bool x y = false <-> y < x.
Proof.
  rewrite <- Qltb_true. unfold Qltb. now rewrite negb_true_iff.
Qed.

Lemma py_max_cases (a b : Q) :
  (py_max a b = b /\ a < b) \/ (py_max a b = a /\ b <= a).
Proof.
  unfold py_max, Qgtb. destruct (Qltb a b) eqn:E.
  - left. split; [reflexivity | now apply Qltb_true].
  - right. split; [reflexivity | now apply Qltb_false].
Qed.

Lemma py_min_cases (a b : Q) :
  (py_min a b = b /\ b < a) \/ (py_min a b = a /\ a <= b).
Proof.
  unfold py_min. destruct (Qltb b a) eqn:E.
  - left. split; [reflexivity | now apply Qltb_true].
  - right. split; [reflexivity | now apply Qltb_false].
Qed.

(** Split on the next comparison of the goal and record its meaning. *)
Ltac split_cmp :=
  match goal with
  | |- context [py_max ?a ?b] =>
      let H := fresh "Hmax" in
      destruct (py_max_cases a b) as [[-> H] | [-> H]]
  | |- context [py_min ?a ?b] =>
      let H := fresh "Hmin" in
      destruct (py_min_cases a b) as [[-> H] | [-> H]]
  | |- context [Qgtb ?a ?b] => unfold Qgtb
  | |- context [Qltb ?a ?b] =>
      let H := fresh "Hlt" in
      destruct (Qltb a b) eqn:H;
      [apply Qltb_true in H | apply Qltb_false in H]
  | |- context [Qle_bool ?a ?b] =>
      let H := fresh "Hle" in
      destruct (Qle_bool a b) eqn:H;
      [apply Qle_bool_iff in H | apply Qle_bool_false in H]
  end.

Lemma uniform_bounds (a b u : Q) :
  a <= b -> 0 <= u <= 1 -> a <= uniform a b u <= b.
Proof.
  intros Hab [H0 H1]. unfold uniform. nra.
Qed.

Lemma In_firstn {A} (x : A) (n : nat) (l : list A) : In x (firstn n l) -> In x l.
Proof.
  intros H. rewrite <- (firstn_skipn n l). apply in_or_app. now left.
Qed.

(** ** The motion analyzer *)

Section MotionFacts.

Context {frame : Type} (mean_abs_diff : frame -> frame -> outcome Q).

Lemma select_moments_length (d : Q) (rand : nat -> Q) (chosen : list (Q * Q)) :
  forall k, length (select_moments d rand k chosen) = length chosen.
Proof.
  induction chosen as [|s rest IH]; intros k; simpl; [reflexivity|].
  now rewrite IH.
Qed.

Lemma select_moments_Forall (P : moment -> Prop) (d : Q) (rand : nat -> Q)
    (chosen : list (Q * Q)) :
  (forall s k, In s chosen -> P (select_moment d (fst s) (uniform 2.5 4 (rand k)))) ->
  forall k, Forall P (select_moments d rand k chosen).
Proof.
  induction chosen as [|s rest IH]; intros HP k; simpl; constructor.
  - apply HP. now left.
  - apply IH. intros s' k' Hin. apply HP. now right.
Qed.

Lemma insert_desc_length (x : Q * Q) (l : list (Q * Q)) :
  length (insert_desc x l) = S (length l).
Proof.
  induction l as [|y l IH]; simpl; [reflexivity|].
  destruct (Qgtb (snd y) (snd x)); simpl; [now rewrite IH | reflexivity].
Qed.

Lemma sort_desc_length (l : list (Q * Q)) : length (sort_desc l) = length l.
Proof.
  induction l as [|x l IH]; simpl; [reflexivity|].
  unfold sort_desc in *. simpl. now rewrite insert_desc_length, IH.
Qed.

Lemma insert_desc_In (x y : Q * Q) (l : list (Q * Q)) :
  In y (insert_desc x l) -> y = x \/ In y l.
Proof.
  induction l as [|z l IH]; simpl.
  - intros [->|[]]. now left.
  - destruct (Qgtb (snd z) (snd x)); simpl.
    + intros [->|H]; [right; now left|]. destruct (IH H); auto.
    + intros [->|[->|H]]; auto.
Qed.

Lemma sort_desc_In (y : Q * Q) (l : list (Q * Q)) :
  In y (sort_desc l) -> In y l.
Proof.
  induction l as [|x l IH]; simpl; [tauto|].
  intros H. apply insert_desc_In in H. destruct H as [->|H]; auto.
Qed.

Lemma sample_loop_decodable (v : VideoClip frame) (d iv : Q) (idx : list Z) :
  decodable frame mean_abs_diff v ->
  map fst (sample_loop frame mean_abs_diff v d iv idx) = sample_times d iv idx.
Proof.
  intros (_ & _ & Hget & Hdiff).
  induction idx as [|i rest IH]; simpl; [reflexivity|].
  destruct (Qgtb (inject_Z i * iv + 1) d); [reflexivity|].
  destruct (Hget (inject_Z i * iv)) as [f1 ->].
  destruct (Hget (py_min (inject_Z i * iv + 0.5) (d - 0.1))) as [f2 ->].
  destruct (Hdiff f1 f2) as [s ->]. simpl. now rewrite IH.
Qed.

Lemma decodable_can_read (v : VideoClip frame) :
  decodable frame mean_abs_diff v -> can_read_frames frame v = true.
Proof.
  intros (Hh & Hr & Hget & _). unfold can_read_frames.
  rewrite Hh, Hr. now destruct (Hget 0) as [f ->].
Qed.

(** The moment chosen for a sample at [t] on a 10 s clip. *)
Lemma select_moment_10 (t r : Q) :
  In t (sample_times 10 (10 / inject_Z 10) (range 10)) ->
  2.5 <= r <= 4 ->
  let m := select_moment 10 t r in
  fst m + snd m <= 10 /\
  (2.5 <= snd m <= 4 \/ (fst m == 8 /\ snd m == 1.9)).
Proof.
  intros Hin [Hlo Hhi].
  vm_compute in Hin.
  unfold select_moment.
  repeat (destruct Hin as [<- | Hin]); try contradiction;
    cbv zeta; repeat split_cmp; cbn [fst snd];
    (split; [lra | first [left; lra | right; split; lra]]).
Qed.

(** C4, amended: on a fully decodable clip of 10 s and [num_clips = 2]
    the analyzer returns exactly two moments, each with
    [start + length <= 10] and a length in [[2.5, 4]], except that a
    moment whose sample lies at 8 s is shrunk to 1.9 s. *)
Theorem decodable_10s_two_moments (v : VideoClip frame) (rand : nat -> Q) :
  duration v = Return (Some 10) ->
  decodable frame mean_abs_diff v ->
  (forall k, 0 <= rand k <= 1) ->
  let ms := detect_interesting_moments frame mean_abs_diff (Some v) 2 rand in
  length ms = 2%nat /\
  Forall (fun m => fst m + snd m <= 10 /\
                   (2.5 <= snd m <= 4 \/ (fst m == 8 /\ snd m == 1.9))) ms.
Proof.
  intros Hd Hdec Hrand.
  pose proof (sample_loop_decodable v 10 (10 / inject_Z 10) (range 10) Hdec) as Htimes.
  pose proof (decodable_can_read v Hdec) as Hread.
  unfold detect_interesting_moments. rewrite Hd, Hread.
  change (Qle_bool 10 0) with false. change (Qltb 10 2) with false.
  cbv iota. cbn [negb].
  change (motion_scores frame mean_abs_diff v 10)
    with (sample_loop frame mean_abs_diff v 10 (10 / inject_Z 10) (range 10)).
  set (scores := sample_loop frame mean_abs_diff v 10 (10 / inject_Z 10) (range 10)) in *.
  assert (Hlen : length scores = 10%nat).
  { rewrite <- (length_map fst), Htimes. reflexivity. }
  destruct scores as [|s0 scores'] eqn:Escores; [discriminate|].
  rewrite <- Escores in *. clear Escores s0 scores'.
  rewrite sort_desc_length, Hlen.
  change (Z.to_nat (Z.min 2 (Z.of_nat 10))) with 2%nat.
  split.
  - rewrite select_moments_length, length_firstn, sort_desc_length, Hlen. reflexivity.
  - apply select_moments_Forall. intros s k Hin.
    apply select_moment_10.
    + rewrite <- Htimes. apply in_map.
      apply sort_desc_In. eapply In_firstn; eassumption.
    + apply uniform_bounds; [lra | apply Hrand].
Qed.

(** C8: on a clip of 20 s whose frames cannot be read the analyzer returns
    exactly one moment; its length is [min(4, 40% of duration)], which is
    at most 4, its start is the draw from [[10%, 50%]] of the duration and
    the segment ends within the clip. *)
Theorem nondecodable_20s_single_moment (v : VideoClip frame) (d : Q)
    (num_clips : Z) (rand : nat -> Q) :
  duration v = Return (Some d) ->
  d == 20 ->
  can_read_frames frame v = false ->
  0 <= rand 0%nat <= 1 ->
  exists start len,
    detect_interesting_moments frame mean_abs_diff (Some v) num_clips rand
      = [(start, len)] /\
    len = py_min 4 (d * 0.4) /\ len <= 4 /\
    start = d * uniform 0.1 0.5 (rand 0%nat) /\
    d * 0.1 <= start <= d * 0.5 /\
    start + len <= 20.
Proof.
  intros Hd Heq Hread Hrand.
  pose proof (uniform_bounds 0.1 0.5 (rand 0%nat) ltac:(lra) Hrand) as Hu.
  unfold detect_interesting_moments. rewrite Hd, Hread. cbn [negb].
  assert (E0 : Qle_bool d 0 = false) by (apply Qle_bool_false; lra).
  assert (E2 : Qltb d 2 = false) by (apply Qltb_false; lra).
  rewrite E0, E2.
  unfold fallback_segment. cbv zeta.
  generalize dependent (uniform 0.1 0.5 (rand 0%nat)). intros u Hu.
  assert (Hseg : py_min 4 (d * 0.4) <= 4).
  { destruct (py_min_cases 4 (d * 0.4)) as [[-> H] | [-> H]]; lra. }
  assert (Hdu : d * u == 20 * u) by (now rewrite Heq).
  assert (Hd1 : d * 0.1 == 2) by (now rewrite Heq).
  assert (Hd5 : d * 0.5 == 10) by (now rewrite Heq).
  assert (Efit : Qgtb (d * u + py_min 4 (d * 0.4)) d = false).
  { apply Qltb_false. lra. }
  rewrite Efit.
  exists (d * u), (py_min 4 (d * 0.4)).
  repeat split; try reflexivity; lra.
Qed.

(** C10: with [num_clips >= 1] the analyzer never returns an empty list:
    each fallback path yields exactly one moment, the scored path yields
    [min(num_clips, number of scores)] moments, which is at least one. *)
Theorem moments_nonempty (video_clip : option (VideoClip frame))
    (num_clips : Z) (rand : nat -> Q) :
  (1 <= num_clips)%Z ->
  let ms := detect_interesting_moments frame mean_abs_diff video_clip num_clips rand in
  (1 <= length ms)%nat /\
  (length ms = 1%nat \/
   exists v d,
     video_clip = Some v /\ duration v = Return (Some d) /\
     motion_scores frame mean_abs_diff v d <> [] /\
     length ms =
       Z.to_nat (Z.min num_clips
                   (Z.of_nat (length (motion_scores frame mean_abs_diff v d))))).
Proof.
  intros Hn. cbv zeta.
  unfold detect_interesting_moments.
  destruct video_clip as [v|]; [|split; [simpl; lia | now left]].
  destruct (duration v) as [e|[d|]] eqn:Hd;
    try (split; [simpl; lia | now left]).
  destruct (Qle_bool d 0); [split; [simpl; lia | now left]|].
  destruct (Qltb d 2); [split; [simpl; lia | now left]|].
  destruct (negb (can_read_frames frame v)); [split; [simpl; lia | now left]|].
  destruct (motion_scores frame mean_abs_diff v d) as [|s scores] eqn:Hs;
    [split; [simpl; lia | now left]|].
  rewrite select_moments_length, length_firstn, sort_desc_length.
  split.
  - simpl length. lia.
  - right. exists v, d. repeat split; try assumption.
    + rewrite Hs. discriminate.
    + rewrite Hs. simpl length. lia.
Qed.

End MotionFacts.

(** A witness of [decodable_10s_two_moments]: the clip [step_clip]. *)
Lemma decodable_10s_two_moments_witness :
  let ms := detect_interesting_moments Q brightness_diff (Some step_clip) 2 (fun _ => 0) in
  length ms = 2%nat /\
  Forall (fun m => fst m + snd m <= 10 /\
                   (2.5 <= snd m <= 4 \/ (fst m == 8 /\ snd m == 1.9))) ms.
Proof.
  apply (decodable_10s_two_moments brightness_diff step_clip (fun _ => 0)).
  - reflexivity.
  - repeat split; intros; eexists; reflexivity.
  - intros _. split; discriminate.
Defined.

(** C4 as stated fails: [step_clip] is fully decodable and lasts 10 s, its
    strongest motion is sampled at 8 s, and the moment returned there is
    [(8, 1.9)], shorter than 2.5 s. *)
Lemma decodable_10s_short_moment :
  duration step_clip = Return (Some 10) /\
  decodable Q brightness_diff step_clip /\
  (forall k : nat, 0 <= (fun _ : nat => 0) k <= 1) /\
  map (fun m => (Qred (fst m), Qred (snd m)))
      (detect_interesting_moments Q brightness_diff (Some step_clip) 2 (fun _ => 0))
    = [(8, 19 # 10); (0, 5 # 2)] /\
  ~ Forall (fun m => 2.5 <= snd m <= 4 /\ fst m + snd m <= 10)
      (detect_interesting_moments Q brightness_diff (Some step_clip) 2 (fun _ => 0)).
Proof.
  split; [reflexivity|].
  split; [repeat split; intros; eexists; reflexivity|].
  split; [intros _; split; discriminate|].
  split; [vm_compute; reflexivity|].
  intros H.
  assert (E : detect_interesting_moments Q brightness_diff (Some step_clip) 2 (fun _ => 0)
              = [(8.0, 1.90); (0.0, 2.50)]) by (vm_compute; reflexivity).
  rewrite E in H. inversion H as [|m ms [[Hlo _] _] _]; subst.
  simpl in Hlo. revert Hlo. vm_compute. intros Hlo. now apply Hlo.
Qed.

(** A witness of [nondecodable_20s_single_moment]: the clip [opaque_clip]. *)
Lemma nondecodable_20s_single_moment_witness :
  exists start len,
    detect_interesting_moments Q brightness_diff (Some opaque_clip) 2 (fun _ => 1)
      = [(start, len)] /\
    len = py_min 4 (20 * 0.4) /\ len <= 4 /\
    start = 20 * uniform 0.1 0.5 1 /\
    20 * 0.1 <= start <= 20 * 0.5 /\
    start + len <= 20.
Proof.
  apply (nondecodable_20s_single_moment brightness_diff opaque_clip 20 2 (fun _ => 1)).
  - reflexivity.
  - reflexivity.
  - reflexivity.
  - split; discriminate.
Defined.

(** A witness of [moments_nonempty]: two moments are asked of [step_clip]. *)
Lemma moments_nonempty_witness :
  (1 <= length (detect_interesting_moments Q brightness_diff (Some step_clip) 2
                  (fun _ => 0%Q)))%nat.
Proof.
  apply (moments_nonempty brightness_diff (Some step_clip) 2 (fun _ => 0)).
  lia.
Defined.

(** ** The polling endpoint *)



Lemma poll_absent (path_exists : string -> bool) (session_id : string) (j : jobs) :
  job_status j !! session_id = None ->
  check_status path_exists session_id j = (absent_answer path_exists session_id, j).
Proof.
  intros H. unfold check_status, absent_answer. rewrite H. simpl.
  now destruct (path_exists _).
Qed.

(** C9: a poll on a session whose state is "processing" answers
    "processing" and returns both job maps as they were. *)
Theorem poll_processing (path_exists : string -> bool) (session_id : string)
    (j : jobs) :
  job_status j !! session_id = Some "processing" ->
  check_status path_exists session_id j = ({[ "status" := JStr "processing" ]}, j).
Proof.
  intros H. unfold check_status. rewrite H. reflexivity.
Qed.


(** ** Trim windows and caption times *)




(** ** Traces *)

Lemma open_handles_app (t1 t2 : list event) :
  forall opened, open_handles (t1 ++ t2) opened = open_handles t2 (open_handles t1 opened).
Proof.
  induction t1 as [|e t1 IH]; intros opened; simpl; [reflexivity|].
  destruct e; apply IH.
Qed.

Lemma written_app (t1 t2 : list event) :
  written (t1 ++ t2) = written t1 ++ written t2.
Proof.
  induction t1 as [|e t1 IH]; simpl; [reflexivity|].
  destruct e; simpl; now rewrite IH.
Qed.

(** Unfold the monad of the pipeline down to worlds and outcomes. *)
Ltac unfold_M :=
  cbv beta iota zeta delta
    [bind ret raise lift emit print read try_except append_clip append_audio];
  cbn [trace clips_to_compile source_clips audio_clips fst snd].

(** Split on the next call to a collaborator, or on the next test. *)
Ltac step_oracle :=
  match goal with
  | |- context [match ?o with Raise _ => _ | Return _ => _ end] => destruct o eqn:?
  | |- context [match ?o with Some _ => _ | None => _ end] => destruct o eqn:?
  | |- context [if ?b then _ else _] => destruct b eqn:?
  end.

Section StageFacts.

Context (L : Media).

Lemma transform_one_inv (settings_map : gmap string VideoSetting)
    (mute_videos : bool) (i : nat) (video_path : string) (w : world L) :
  stage_inv w ->
  exists w' r,
    transform_one L settings_map mute_videos i video_path w = (w', r) /\
    stage_inv w' /\
    (source_clips w' = [] -> r = Return tt).
Proof.
  intros (Hopen & Hlen & Hwr).
  unfold transform_one, process_source, on_error, subclip_compat, crop,
    close_source.
  unfold_M.
  repeat (step_oracle; unfold_M).
  all: repeat match goal with u : unit |- _ => destruct u end.
  all: eexists _, _; split; [reflexivity|].
  all: unfold stage_inv; cbn [trace clips_to_compile source_clips audio_clips].
  all: repeat rewrite <- app_assoc; cbn [app].
  all: rewrite open_handles_app, written_app, Hwr; cbn [open_handles written app].
  all: split; [split; [|split; [rewrite ?length_app; simpl; lia | reflexivity]]|].
  all: intros Hs; try (apply app_eq_nil in Hs; destruct Hs; discriminate).
  all: try reflexivity.
  all: try (rewrite (Hopen Hs); simpl; rewrite ?Nat.eqb_refl; reflexivity).
  all: exfalso; rewrite Hs in *; simpl in *;
    repeat match goal with b : bool |- _ => destruct b end;
    simpl in *; congruence.
Qed.

Lemma transform_stage_inv (settings_map : gmap string VideoSetting)
    (mute_videos : bool) (video_paths : list string) :
  forall (i : nat) (w : world L),
    stage_inv w ->
    exists w' r,
      transform_stage L settings_map mute_videos i video_paths w = (w', r) /\
      stage_inv w' /\
      (source_clips w' = [] -> r = Return tt).
Proof.
  induction video_paths as [|p rest IH]; intros i w Hw; simpl.
  - exists w, (Return tt). split; [reflexivity | split; [exact Hw | reflexivity]].
  - destruct (transform_one_inv settings_map mute_videos i p w Hw)
      as (w1 & r1 & E1 & H1 & R1).
    unfold bind. rewrite E1. destruct r1 as [e|[]].
    + exists w1, (Raise e). split; [reflexivity | split; assumption].
    + destruct (IH (S i) w1 H1) as (w2 & r2 & E2 & H2 & R2).
      exists w2, r2. split; [exact E2 | split; assumption].
Qed.

Lemma start_world_inv : stage_inv (start_world L).
Proof.
  split; [reflexivity | split; reflexivity].
Qed.

(** The release loops never raise and only extend the trace. *)
Lemma extends_refl (w : world L) : extends w w.
Proof. exists []. now rewrite app_nil_r. Qed.

Lemma extends_trans (w1 w2 w3 : world L) :
  extends w1 w2 -> extends w2 w3 -> extends w1 w3.
Proof.
  intros [e1 H1] [e2 H2]. exists (e1 ++ e2). now rewrite H2, H1, app_assoc.
Qed.

Lemma extends_In (w w' : world L) (e : event) :
  extends w w' -> In e (trace w) -> In e (trace w').
Proof.
  intros [evs ->] H. apply in_or_app. now left.
Qed.

Lemma close_sources_returns (l : list (nat * source L)) :
  forall w, exists w', close_sources L l w = (w', Return tt) /\ extends w w'.
Proof.
  induction l as [|[h s] rest IH]; intros w; simpl.
  - exists w. split; [reflexivity | apply extends_refl].
  - unfold close_source. unfold_M.
    destruct (source_close L s) as [e|[]];
      match goal with
      | |- context [close_sources L rest ?w1] =>
          destruct (IH w1) as (w2 & E2 & X2); exists w2; split; [exact E2|];
          eapply extends_trans; [|exact X2]; eexists; reflexivity
      end.
Qed.

Lemma close_clips_returns (l : list (clip L)) :
  forall w, exists w', close_clips L l w = (w', Return tt) /\ extends w w'.
Proof.
  induction l as [|c rest IH]; intros w; simpl.
  - exists w. split; [reflexivity | apply extends_refl].
  - unfold_M.
    destruct (clip_close L c) as [e|[]];
      match goal with
      | |- context [close_clips L rest ?w1] =>
          destruct (IH w1) as (w2 & E2 & X2); exists w2; split; [exact E2|];
          eapply extends_trans; [|exact X2]; eexists; reflexivity
      end.
Qed.

Lemma close_audios_returns (l : list (audio L)) :
  forall w, exists w', close_audios L l w = (w', Return tt) /\ extends w w'.
Proof.
  induction l as [|c rest IH]; intros w; simpl.
  - exists w. split; [reflexivity | apply extends_refl].
  - unfold_M.
    destruct (audio_close L c) as [e|[]];
      match goal with
      | |- context [close_audios L rest ?w1] =>
          destruct (IH w1) as (w2 & E2 & X2); exists w2; split; [exact E2|];
          eapply extends_trans; [|exact X2]; eexists; reflexivity
      end.
Qed.

(** C3: when the transform stage leaves no clip, [create_reel] raises the
    "no clips" error; at that point every source handle that was opened
    has been closed and [write_videofile] has not been called; and
    [create_reel_async] records the state "failed" with that message. *)
Theorem no_clips_fails (session_id : string) (video_paths : list string)
    (video_settings : list VideoSetting) (captions : list Caption)
    (music_path : option string) (mute_videos : bool)
    (text_style : option TextStyle) (music_fade : Q) (output_filename : string)
    (j : jobs) (settings_map : gmap string VideoSetting) :
  build_settings_map video_paths video_settings ∅ = Return settings_map ->
  clips_to_compile
    (fst (transform_stage L settings_map mute_videos 0 video_paths (start_world L)))
    = [] ->
  exists w,
    create_reel L video_paths video_settings captions music_path mute_videos
                text_style music_fade output_filename (start_world L)
      = (w, Raise no_clips_message) /\
    open_handles (trace w) [] = [] /\
    written (trace w) = [] /\
    create_reel_async L session_id video_paths video_settings captions music_path
                      mute_videos text_style music_fade output_filename j
      = (w, {| job_status := <[session_id := "failed"]> (job_status j);
               job_results :=
                 <[session_id := {[ "error" := JStr no_clips_message ]}]>
                   (job_results j) |}).
Proof.
  intros Hmap Hnone.
  destruct (transform_stage_inv settings_map mute_videos video_paths 0
              (start_world L) start_world_inv)
    as (w & r & Ew & (Hopen & Hlen & Hwr) & Hret).
  rewrite Ew in Hnone. cbn [fst] in Hnone.
  assert (Hsrc : source_clips w = []).
  { rewrite Hnone in Hlen. destruct (source_clips w); [reflexivity|discriminate]. }
  rewrite (Hret Hsrc) in Ew.
  assert (Erun : create_reel L video_paths video_settings captions music_path
                   mute_videos text_style music_fade output_filename (start_world L)
                 = (w, Raise no_clips_message)).
  { unfold create_reel. rewrite Hmap. unfold_M. rewrite Ew. unfold_M.
    rewrite Hnone, Hsrc. reflexivity. }
  exists w. split; [exact Erun|].
  split; [exact (Hopen Hsrc)|].
  split; [exact Hwr|].
  unfold create_reel_async. rewrite Erun. reflexivity.
Qed.


End StageFacts.

(** ** The audio mixer *)

Lemma py_int_floor (q : Q) : 0 <= q -> py_int q = Qfloor q.
Proof.
  destruct q as [n d]. unfold Qle, py_int, Qfloor. simpl. intros H.
  apply Z.quot_div_nonneg; lia.
Qed.

(** The number of loops is enough to cover the timeline. *)
Lemma loops_cover (f m : Q) :
  0 < m -> m < f ->
  exists n, loops_needed f m = Return n /\ (2 <= n)%Z /\ f < inject_Z n * m.
Proof.
  intros Hm Hmf.
  unfold loops_needed, py_div.
  assert (E : Qeq_bool m 0 = false).
  { destruct (Qeq_bool m 0) eqn:E; [|reflexivity].
    apply Qeq_bool_iff in E. lra. }
  rewrite E.
  assert (Hq : 1 <= f / m).
  { apply Qle_shift_div_l; lra. }
  exists (py_int (f / m) + 1)%Z.
  rewrite py_int_floor by lra.
  split; [reflexivity|]. split.
  - assert (H1 : (Qfloor 1 <= Qfloor (f / m))%Z) by (apply Qfloor_resp_le; exact Hq).
    change (Qfloor 1) with 1%Z in H1. lia.
  - pose proof (Qlt_floor (f / m)) as Hlt.
    assert (Hf : f == f / m * m) by (field; lra).
    rewrite Hf at 1. apply Qmult_lt_compat_r; assumption.
Qed.

Section MixerFacts.

Context (L : Media).

(** C5: a track shorter than the timeline is repeated whole,
    [int(timeline / track) + 1] times, and the result is cut at the
    timeline's end: the track handed on lasts exactly as long as the
    timeline.  moviepy is taken at its word for the duration of a
    concatenation and of a cut. *)
Theorem looped_music_fits (music : audio L) (final_clip : clip L) (m f : Q)
    (w : world L) :
  concat_contract L ->
  subclip_contract L ->
  audio_duration L music = Some m ->
  clip_duration L final_clip = Some f ->
  0 < m ->
  m < f ->
  exists n looped cut d,
    loops_needed f m = Return n /\ (2 <= n)%Z /\
    concatenate_audioclips L (repeat music (Z.to_nat n)) = Return looped /\
    audio_subclipped L looped 0 f = Return cut /\
    snd (fit_music L music final_clip w) = Return cut /\
    audio_duration L cut = Some d /\ d == f.
Proof.
  intros Hcat Hcut Hm Hf Hpos Hshort.
  destruct (loops_cover f m Hpos Hshort) as (n & En & Hn & Hcover).
  destruct (Hcat music m (Z.to_nat n) Hm ltac:(lia))
    as (looped & dl & Elooped & Hdl & Hdl_eq).
  rewrite Z2Nat.id in Hdl_eq by lia.
  destruct (Hcut looped dl f Hdl ltac:(lra)) as (cut & d & Ecut & Hd & Hd_eq).
  exists n, looped, cut, d.
  repeat (split; [assumption|]).
  split; [|split; assumption].
  unfold fit_music. rewrite Hm, Hf. unfold number. unfold_M.
  assert (E : Qltb m f = true) by (apply Qltb_true; exact Hshort).
  rewrite E. unfold_M. rewrite En. unfold_M. rewrite Elooped. unfold_M.
  rewrite Ecut. reflexivity.
Qed.

(** ** Best-effort features *)

Lemma caption_stage_returns (final_clip : clip L) (captions : list Caption)
    (text_style : option TextStyle) (w : world L) :
  exists w' c, caption_stage L final_clip captions text_style w = (w', Return c).
Proof.
  unfold caption_stage. destruct captions as [|cap rest].
  - now exists w, final_clip.
  - unfold try_except.
    destruct (add_captions L final_clip (cap :: rest) text_style w) as [w1 [e|c]].
    + unfold_M. eexists _, _. reflexivity.
    + now exists w1, c.
Qed.

Lemma caption_failure_caught (final_clip : clip L) (captions : list Caption)
    (text_style : option TextStyle) (w w1 : world L) (e : string) :
  captions <> [] ->
  add_captions L final_clip captions text_style w = (w1, Raise e) ->
  caption_stage L final_clip captions text_style w
    = (fst (print (CaptionsFailed e) w1), Return final_clip).
Proof.
  intros Hne Hfail. unfold caption_stage.
  destruct captions as [|cap rest]; [contradiction|].
  unfold try_except. rewrite Hfail. reflexivity.
Qed.

Lemma fade_failure_caught (music : audio L) (music_fade : Q) (w : world L)
    (e : string) :
  0 < music_fade ->
  fade_in_out L music music_fade = Raise e ->
  apply_fade L music music_fade w
    = (fst (print (FadeFailed e) (fst (print (Fading music_fade) w))), Return music).
Proof.
  intros Hpos Hfail. unfold apply_fade.
  assert (E : Qgtb music_fade 0 = true) by (apply Qltb_true; exact Hpos).
  rewrite E. unfold_M. rewrite Hfail. reflexivity.
Qed.

Lemma volume_failure_caught (music : audio L) (w : world L) (e : string) :
  multiply_volume L music 0.3 = Raise e ->
  apply_volume L music w = (fst (print (VolumeFailed e) w), Return music).
Proof.
  intros Hfail. unfold apply_volume. unfold_M. rewrite Hfail. reflexivity.
Qed.

Lemma music_stage_returns (final_clip : clip L) (music_path : option string)
    (music_fade : Q) (w : world L) :
  exists w' c, music_stage L final_clip music_path music_fade w = (w', Return c).
Proof.
  unfold music_stage. destruct music_path as [[|a r]|]; try (now exists w, final_clip).
  destruct (path_exists L (String a r)); [|now exists w, final_clip].
  unfold try_except.
  destruct (add_music L final_clip (String a r) music_fade w) as [w1 [e|c]].
  - unfold_M. eexists _, _. reflexivity.
  - now exists w1, c.
Qed.

Lemma decode_failure_caught (final_clip : clip L) (music_path : string)
    (music_fade : Q) (w : world L) (e : string) :
  music_path <> "" ->
  path_exists L music_path = true ->
  AudioFileClip L music_path = Raise e ->
  music_stage L final_clip (Some music_path) music_fade w
    = (fst (print (MusicFailed e) (fst (print (AddingMusic music_path) w))),
       Return final_clip).
Proof.
  intros Hne Hex Hfail. unfold music_stage.
  destruct music_path as [|a r]; [contradiction|].
  rewrite Hex. unfold add_music. unfold_M. rewrite Hfail. reflexivity.
Qed.

(** When the encoder and the final [close()] succeed, the writer returns
    the output path, and [write_videofile] was called on it. *)
Lemma write_stage_returns (final_clip : clip L) (output_filename : string)
    (w : world L) :
  (forall c p, write_videofile L c p = Return tt) ->
  (forall c, clip_close L c = Return tt) ->
  exists w',
    write_stage L final_clip output_filename w
      = (w', Return (path_join OUTPUT_FOLDER output_filename)) /\
    In (WriteVideo (path_join OUTPUT_FOLDER output_filename)) (trace w').
Proof.
  intros Hwrite Hclose. unfold write_stage. unfold_M.
  rewrite Hwrite, Hclose. unfold_M.
  match goal with
  | |- context [close_clips L ?l ?w1] =>
      destruct (close_clips_returns L l w1) as (w2 & E2 & X2)
  end.
  rewrite E2. unfold_M.
  destruct (close_sources_returns L (source_clips w2) w2) as (w3 & E3 & X3).
  rewrite E3. unfold_M.
  destruct (close_audios_returns L (audio_clips w3) w3) as (w4 & E4 & X4).
  rewrite E4. unfold_M.
  exists w4. split; [reflexivity|].
  eapply (extends_In L); [exact X4|]. eapply (extends_In L); [exact X3|].
  eapply (extends_In L); [exact X2|]. cbn [trace].
  rewrite !in_app_iff. cbn. tauto.
Qed.

(** C7: once the transform stage has left clips that concatenate, nothing
    that goes wrong in the
    captions, the fade, the volume or the music decoding stops the run:
    whenever the encoder itself succeeds, [create_reel] calls
    [write_videofile] and returns the output path.  A failure of each of
    the four features is caught, printed, and the feature is left out: the
    timeline (or the track) is handed on unchanged. *)
Theorem best_effort_never_fails (video_paths : list string)
    (video_settings : list VideoSetting) (captions : list Caption)
    (music_path : option string) (mute_videos : bool)
    (text_style : option TextStyle) (music_fade : Q) (output_filename : string)
    (settings_map : gmap string VideoSetting) (transformed : world L)
    (base : clip L) (d : Q) :
  (forall c p, write_videofile L c p = Return tt) ->
  (forall c, clip_close L c = Return tt) ->
  build_settings_map video_paths video_settings ∅ = Return settings_map ->
  transform_stage L settings_map mute_videos 0 video_paths (start_world L)
    = (transformed, Return tt) ->
  clips_to_compile transformed <> [] ->
  concatenate_videoclips L (clips_to_compile transformed) = Return base ->
  clip_duration L base = Some d ->
  (exists w,
     create_reel L video_paths video_settings captions music_path mute_videos
                 text_style music_fade output_filename (start_world L)
       = (w, Return (path_join OUTPUT_FOLDER output_filename)) /\
     In (WriteVideo (path_join OUTPUT_FOLDER output_filename)) (trace w)) /\
  (forall final_clip w0 w1 e,
     captions <> [] ->
     add_captions L final_clip captions text_style w0 = (w1, Raise e) ->
     caption_stage L final_clip captions text_style w0
       = (fst (print (CaptionsFailed e) w1), Return final_clip)) /\
  (forall music w0 e,
     0 < music_fade ->
     fade_in_out L music music_fade = Raise e ->
     apply_fade L music music_fade w0
       = (fst (print (FadeFailed e) (fst (print (Fading music_fade) w0))),
          Return music)) /\
  (forall music w0 e,
     multiply_volume L music 0.3 = Raise e ->
     apply_volume L music w0 = (fst (print (VolumeFailed e) w0), Return music)) /\
  (forall final_clip p w0 e,
     p <> "" ->
     path_exists L p = true ->
     AudioFileClip L p = Raise e ->
     music_stage L final_clip (Some p) music_fade w0
       = (fst (print (MusicFailed e) (fst (print (AddingMusic p) w0))),
          Return final_clip)).
Proof.
  intros Hwrite Hclose Hmap E1 Hclips Hcat Hdur.
  split; [|split; [|split; [|split]]].
  - unfold create_reel. rewrite Hmap. unfold_M. rewrite E1. unfold_M.
    destruct (clips_to_compile transformed) as [|c0 cs] eqn:Ecs; [contradiction|].
    unfold concatenate. unfold_M. rewrite Hcat. unfold_M. rewrite Hdur.
    unfold number. unfold_M.
    match goal with
    | |- context [caption_stage L base captions text_style ?w2] =>
        destruct (caption_stage_returns base captions text_style w2)
          as (w3 & c3 & E3)
    end.
    rewrite E3. unfold_M.
    destruct (music_stage_returns c3 music_path music_fade w3) as (w4 & c4 & E4).
    rewrite E4. unfold_M.
    destruct (write_stage_returns c4 output_filename w4 Hwrite Hclose)
      as (w5 & E5 & Hw5).
    exists w5. split; assumption.
  - intros. now apply caption_failure_caught.
  - intros. now apply fade_failure_caught.
  - intros. now apply volume_failure_caught.
  - intros. now apply decode_failure_caught.
Qed.

End MixerFacts.

(** ** Runs in the studio *)






(** A witness of [no_clips_fails]: the only video is opened, its last 0.2 s
    cannot be cut to a span of 0.5 s, the handle is closed and the run
    fails. *)
Lemma no_clips_fails_witness :
  exists w,
    create_reel studio ["a.mp4"; "missing.mp4"] [tail_setting] [] None false None 2
                "out.mp4" (start_world studio)
      = (w, Raise no_clips_message) /\
    In (Open 0) (trace w) /\
    open_handles (trace w) [] = [] /\
    written (trace w) = [].
Proof.
  assert (Hmap : build_settings_map ["a.mp4"; "missing.mp4"] [tail_setting] ∅
                 = Return {[ "a.mp4" := tail_setting ]}) by reflexivity.
  assert (Hnone : clips_to_compile
                    (fst (transform_stage studio {[ "a.mp4" := tail_setting ]} false 0
                            ["a.mp4"; "missing.mp4"] (start_world studio))) = [])
    by (vm_compute; reflexivity).
  destruct (no_clips_fails studio "a1" ["a.mp4"; "missing.mp4"] [tail_setting] []
              None false None 2 "out.mp4" two_jobs _ Hmap Hnone)
    as (w & Erun & Hopen & Hwr & _).
  exists w. repeat split; try assumption.
  assert (E : fst (create_reel studio ["a.mp4"; "missing.mp4"] [tail_setting] []
                     None false None 2 "out.mp4" (start_world studio)) = w)
    by (now rewrite Erun).
  rewrite <- E. vm_compute. tauto.
Defined.

Lemma studio_concat : concat_contract studio.
Proof.
  intros a d n Hd Hn. simpl in Hd. injection Hd as ->.
  exists (fold_right Qplus 0 (repeat d n)), (fold_right Qplus 0 (repeat d n)).
  split; [reflexivity|]. split; [reflexivity|].
  clear Hn. induction n as [|n IH].
  - change (inject_Z (Z.of_nat 0)) with 0. cbn [repeat fold_right]. lra.
  - cbn [repeat fold_right]. rewrite IH.
    rewrite Nat2Z.inj_succ. unfold Z.succ. rewrite inject_Z_plus.
    change (inject_Z 1) with 1. lra.
Qed.

Lemma studio_subclip : subclip_contract studio.
Proof.
  intros a d e Hd [H0 He]. simpl in Hd. injection Hd as ->.
  exists (e - 0), (e - 0). simpl.
  assert (E : Qle_bool e d = true) by (now apply Qle_bool_iff).
  rewrite E. repeat split. lra.
Qed.

(** A witness of [looped_music_fits]: a track of 3 s under a timeline of
    20 s. *)
Lemma looped_music_fits_witness :
  exists n looped cut d,
    loops_needed (20 - 0) 3 = Return n /\ (2 <= n)%Z /\
    concatenate_audioclips studio (repeat (3 : audio studio) (Z.to_nat n))
      = Return looped /\
    audio_subclipped studio looped 0 (20 - 0) = Return cut /\
    snd (fit_music studio 3 (0, 20) (start_world studio)) = Return cut /\
    audio_duration studio cut = Some d /\ d == 20 - 0.
Proof.
  apply (looped_music_fits studio 3 (0, 20) 3 (20 - 0) (start_world studio)
           studio_concat studio_subclip).
  - reflexivity.
  - reflexivity.
  - reflexivity.
  - reflexivity.
Defined.

(** A witness of [best_effort_never_fails]: in the studio the caption cannot
    be rendered and neither the fade nor the volume can be applied, yet the
    reel is written. *)
Lemma best_effort_never_fails_witness :
  exists w,
    create_reel studio ["a.mp4"; "broken.mp4"] [narrow_setting] [late_caption]
                (Some "song.mp3") true None 2 "out.mp4" (start_world studio)
      = (w, Return (path_join OUTPUT_FOLDER "out.mp4")) /\
    In (WriteVideo (path_join OUTPUT_FOLDER "out.mp4")) (trace w).
Proof.
  assert (Hmap : build_settings_map ["a.mp4"; "broken.mp4"] [narrow_setting] ∅
                 = Return {[ "a.mp4" := narrow_setting ]}) by reflexivity.
  refine (proj1 (best_effort_never_fails studio ["a.mp4"; "broken.mp4"]
                   [narrow_setting] [late_caption] (Some "song.mp3") true None 2
                   "out.mp4" _
                   (fst (transform_stage studio {[ "a.mp4" := narrow_setting ]} true 0
                           ["a.mp4"; "broken.mp4"] (start_world studio)))
                   _ _ _ _ Hmap _ _ _ _)).
  - intros c p. reflexivity.
  - intros c. reflexivity.
  - vm_compute. reflexivity.
  - vm_compute. discriminate.
  - reflexivity.
  - reflexivity.
Defined.

(** A witness of [poll_processing]: the running job of [two_jobs]. *)
Lemma poll_processing_witness :
  check_status (fun _ => false) "b2" two_jobs
    = ({[ "status" := JStr "processing" ]}, two_jobs).
Proof.
  apply (poll_processing (fun _ => false) "b2" two_jobs).
  vm_compute. reflexivity.
Defined.


(** * More of the program *)

Import Files Runs Endpoint.

(** * Further facts *)

(** ** File-name filters *)

Lemma rsplit_dot_none (s : string) : rsplit_dot s = None <-> has_dot s = false.
Proof.
  induction s as [|c rest IH]; simpl; [tauto|].
  destruct (rsplit_dot rest) as [[h t]|].
  - split; [discriminate|]. intros H. apply orb_false_iff in H.
    destruct H as [_ H]. apply IH in H. discriminate.
  - destruct (Ascii.eqb c ".") eqn:E; simpl.
    + split; discriminate.
    + split; [intros _; now apply IH | reflexivity].
Qed.

Lemma append_nil (s : string) : String.append "" s = s.
Proof. reflexivity. Qed.

Lemma append_cons (c : ascii) (h s : string) :
  String.append (String c h) s = String c (String.append h s).
Proof. reflexivity. Qed.

Lemma has_dot_append (head tail : string) :
  has_dot (String.append head (String "." tail)) = true.
Proof.
  induction head as [|a h IH].
  - reflexivity.
  - rewrite append_cons. simpl. rewrite IH. apply orb_true_r.
Qed.

Lemma rsplit_dot_some (s head tail : string) :
  rsplit_dot s = Some (head, tail) <->
  s = String.append head (String "." tail) /\ has_dot tail = false.
Proof.
  revert head. induction s as [|c rest IH]; intros head; simpl.
  - split; [discriminate|]. intros [H _]. destruct head; discriminate.
  - destruct (rsplit_dot rest) as [[h t]|] eqn:E.
    + split.
      * intros H. injection H as <- <-.
        destruct (proj1 (IH h) eq_refl) as [-> Ht]. now split.
      * intros [H Ht]. destruct head as [|c' head'].
        -- rewrite append_nil in H. injection H as -> ->.
           apply rsplit_dot_none in Ht. congruence.
        -- rewrite append_cons in H. injection H as -> H.
           assert (E' : Some (h, t) = Some (head', tail)).
           { apply IH. now split. }
           now injection E' as -> ->.
    + apply rsplit_dot_none in E. destruct (Ascii.eqb c ".") eqn:Ec.
      * apply Ascii.eqb_eq in Ec. subst c. split.
        -- intros H. injection H as <- <-. now split.
        -- intros [H Ht]. destruct head as [|c' head'].
           ++ rewrite append_nil in H. now injection H as ->.
           ++ rewrite append_cons in H. injection H as _ H. subst rest.
              rewrite has_dot_append in E. discriminate.
      * split; [discriminate|]. intros [H Ht].
        destruct head as [|c' head'].
        -- rewrite append_nil in H. injection H as -> _.
           now rewrite Ascii.eqb_refl in Ec.
        -- rewrite append_cons in H. injection H as _ H. subst rest.
           rewrite has_dot_append in E. discriminate.
Qed.

Lemma lower_char_not_M (c : ascii) : lower_char c <> "M"%char.
Proof.
  destruct c as [[] [] [] [] [] [] [] []]; vm_compute; discriminate.
Qed.

Lemma in_set_In (x : string) (s : list string) : in_set x s = true <-> In x s.
Proof.
  unfold in_set. rewrite existsb_exists. split.
  - intros (y & Hy & E). apply String.eqb_eq in E. now subst.
  - intros H. exists x. split; [exact H | apply String.eqb_refl].
Qed.

(** X1: a file name is accepted as a video exactly when it has a dot and
    the text after its last dot is, ignoring case, one of mp4, mov, avi and
    mkv; the upper-case entries of the set never decide. *)
Theorem allowed_file_iff (filename : string) :
  allowed_file filename = true <->
  exists stem ext,
    filename = (stem ++ "." ++ ext)%string /\ has_dot ext = false /\
    In (lower ext) ["mp4"; "mov"; "avi"; "mkv"]%string.
Proof.
  unfold allowed_file, extension_in. split.
  - intros H. apply andb_true_iff in H. destruct H as [_ H].
    destruct (rsplit_dot filename) as [[stem ext]|] eqn:E; [|discriminate].
    apply rsplit_dot_some in E. destruct E as [-> Hext].
    exists stem, ext. split; [reflexivity|]. split; [exact Hext|].
    apply in_set_In in H. unfold ALLOWED_EXTENSIONS in H. simpl in H. simpl.
    destruct H as [H|[H|[H|[H|[H|[H|[]]]]]]]; auto.
    + exfalso. destruct ext as [|c ext]; [discriminate|]. simpl in H.
      injection H as H _. symmetry in H. exact (lower_char_not_M c H).
    + exfalso. destruct ext as [|c ext]; [discriminate|]. simpl in H.
      injection H as H _. symmetry in H. exact (lower_char_not_M c H).
  - intros (stem & ext & -> & Hext & Hin).
    change (stem ++ "." ++ ext)%string with (String.append stem (String "." ext)).
    assert (E : rsplit_dot (String.append stem (String "." ext)) = Some (stem, ext)).
    { apply rsplit_dot_some. now split. }
    rewrite E. apply andb_true_iff. split.
    + apply has_dot_append.
    + apply in_set_In. unfold ALLOWED_EXTENSIONS. simpl in *. tauto.
Qed.

(** X2: no file name is accepted both as a video and as a music track. *)
Theorem video_and_music_disjoint (filename : string) :
  allowed_file filename = true -> allowed_music_file filename = false.
Proof.
  unfold allowed_file, allowed_music_file, extension_in.
  intros H. apply andb_true_iff in H. destruct H as [Hd H]. rewrite Hd. simpl.
  destruct (rsplit_dot filename) as [[stem ext]|]; [|reflexivity].
  apply in_set_In in H. unfold ALLOWED_EXTENSIONS in H. simpl in H.
  destruct H as [H|[H|[H|[H|[H|[H|[]]]]]]]; rewrite <- H; reflexivity.
Qed.

(** A witness of [video_and_music_disjoint]. *)
Lemma video_and_music_disjoint_witness : allowed_music_file "Clip.final.MOV" = false.
Proof.
  apply (video_and_music_disjoint "Clip.final.MOV"). reflexivity.
Defined.

(** ** More on the motion analyzer *)

Section MoreMotionFacts.

Context {frame : Type} (mean_abs_diff : frame -> frame -> outcome Q).

Lemma sample_loop_times (v : VideoClip frame) (d iv : Q) (idx : list Z) (s : Q * Q) :
  In s (sample_loop frame mean_abs_diff v d iv idx) ->
  exists i, In i idx /\ fst s = inject_Z i * iv.
Proof.
  induction idx as [|i rest IH]; simpl; [tauto|].
  destruct (Qgtb (inject_Z i * iv + 1) d); [intros []|].
  assert (Hrest : In s (sample_loop frame mean_abs_diff v d iv rest) ->
                  exists i0, (i = i0 \/ In i0 rest) /\ fst s = inject_Z i0 * iv).
  { intros H. destruct (IH H) as (i0 & Hi & E). exists i0. tauto. }
  destruct (get_frame v (inject_Z i * iv)) as [e|[f1|]]; try exact Hrest.
  destruct (get_frame v (py_min (inject_Z i * iv + 0.5) (d - 0.1))) as [e|[f2|]];
    try exact Hrest.
  destruct (mean_abs_diff f1 f2) as [e|score]; try exact Hrest.
  intros [<-|H]; [|now apply Hrest].
  exists i. split; [now left | reflexivity].
Qed.

Lemma sample_loop_length (v : VideoClip frame) (d iv : Q) (idx : list Z) :
  (length (sample_loop frame mean_abs_diff v d iv idx) <= length idx)%nat.
Proof.
  induction idx as [|i rest IH]; simpl; [lia|].
  destruct (Qgtb (inject_Z i * iv + 1) d); [simpl; lia|].
  destruct (get_frame v (inject_Z i * iv)) as [e|[f1|]]; try lia.
  destruct (get_frame v (py_min (inject_Z i * iv + 0.5) (d - 0.1))) as [e|[f2|]];
    try lia.
  destruct (mean_abs_diff f1 f2) as [e|score]; simpl; lia.
Qed.

Lemma range_nonneg (n i : Z) : In i (range n) -> (0 <= i)%Z.
Proof.
  unfold range. rewrite in_map_iff. intros (k & <- & _). lia.
Qed.

Lemma range_length (n : Z) : length (range n) = Z.to_nat n.
Proof.
  unfold range. now rewrite length_map, length_seq.
Qed.

Lemma py_int_pos (d : Q) : 2 <= d -> (2 <= py_int d)%Z.
Proof.
  intros H. rewrite py_int_floor by lra.
  change 2%Z with (Qfloor 2). now apply Qfloor_resp_le.
Qed.

(** The start of every scored sample is at or after 0. *)
Lemma motion_scores_nonneg (v : VideoClip frame) (d : Q) (s : Q * Q) :
  2 <= d -> In s (motion_scores frame mean_abs_diff v d) -> 0 <= fst s.
Proof.
  intros Hd Hin. unfold motion_scores in Hin.
  apply sample_loop_times in Hin. destruct Hin as (i & Hi & ->).
  apply range_nonneg in Hi.
  pose proof (py_int_pos d Hd) as Hint.
  set (n := Z.min 15 (py_int d)) in *.
  assert (Hn : 0 < inject_Z n).
  { change 0 with (inject_Z 0). rewrite <- Zlt_Qlt. lia. }
  assert (Hi' : 0 <= inject_Z i).
  { change 0 with (inject_Z 0). rewrite <- Zle_Qle. exact Hi. }
  apply Qmult_le_0_compat; [exact Hi'|].
  apply Qle_shift_div_l; [exact Hn | lra].
Qed.

Lemma select_moment_fits (d t r : Q) :
  2 <= d -> 0 <= t -> 2.5 <= r <= 4 -> fits d (select_moment d t r).
Proof.
  intros Hd Ht [Hlo Hhi]. unfold select_moment, fits. cbv zeta.
  repeat split_cmp; cbn [fst snd]; repeat split; lra.
Qed.

Lemma fallback_segment_fits (d lo hi u : Q) :
  2 <= d -> 0 <= lo -> lo <= hi -> 0 <= u <= 1 ->
  Forall (fits d) (fallback_segment d lo hi u).
Proof.
  intros Hd Hlo Hhi Hu.
  pose proof (uniform_bounds lo hi u Hhi Hu) as Hoff.
  unfold fallback_segment. cbv zeta.
  generalize dependent (uniform lo hi u). intros off Hoff.
  assert (Hstart : 0 <= d * off) by (apply Qmult_le_0_compat; lra).
  constructor; [|constructor].
  unfold fits. repeat split_cmp; cbn [fst snd]; repeat split; lra.
Qed.

(** X3: for a clip with a positive duration every moment that the analyzer
    returns lies within the clip: it starts at or after 0, has a positive
    length of at most 4 s and ends no later than the clip. *)
Theorem moments_fit_in_clip (v : VideoClip frame) (d : Q) (num_clips : Z)
    (rand : nat -> Q) :
  duration v = Return (Some d) ->
  0 < d ->
  (forall k, 0 <= rand k <= 1) ->
  Forall (fits d)
    (detect_interesting_moments frame mean_abs_diff (Some v) num_clips rand).
Proof.
  intros Hdur Hd Hrand. unfold detect_interesting_moments. rewrite Hdur.
  assert (E0 : Qle_bool d 0 = false) by (apply Qle_bool_false; exact Hd).
  rewrite E0.
  destruct (Qltb d 2) eqn:E2.
  - apply Qltb_true in E2. constructor; [|constructor].
    unfold fits. split_cmp; cbn [fst snd]; repeat split; lra.
  - apply Qltb_false in E2.
    destruct (negb (can_read_frames frame v)).
    + apply fallback_segment_fits; try lra. apply Hrand.
    + destruct (motion_scores frame mean_abs_diff v d) as [|s0 rest] eqn:Es.
      * apply fallback_segment_fits; try lra. apply Hrand.
      * rewrite <- Es. apply select_moments_Forall. intros s k Hin.
        apply select_moment_fits; [exact E2 | |].
        -- apply (motion_scores_nonneg v d s E2).
           apply sort_desc_In. eapply In_firstn. exact Hin.
        -- apply uniform_bounds; [lra | apply Hrand].
Qed.

(** X4: the analyzer returns at most 15 moments, and never more than were
    asked for, except that a fallback path returns its single moment even
    when fewer than one was asked for. *)
Theorem moments_count_bound (video_clip : option (VideoClip frame))
    (num_clips : Z) (rand : nat -> Q) :
  let ms := detect_interesting_moments frame mean_abs_diff video_clip num_clips rand in
  (length ms <= 15)%nat /\ (Z.of_nat (length ms) <= Z.max 1 num_clips)%Z.
Proof.
  cbv zeta. unfold detect_interesting_moments.
  destruct video_clip as [v|]; [|simpl; lia].
  destruct (duration v) as [e|[d|]]; try (simpl; lia).
  destruct (Qle_bool d 0); [simpl; lia|].
  destruct (Qltb d 2); [simpl; lia|].
  destruct (negb (can_read_frames frame v)); [simpl; lia|].
  destruct (motion_scores frame mean_abs_diff v d) as [|s0 rest] eqn:Es;
    [simpl; lia|].
  rewrite <- Es.
  rewrite select_moments_length, length_firstn, sort_desc_length.
  assert (Hlen : (length (motion_scores frame mean_abs_diff v d) <= 15)%nat).
  { unfold motion_scores.
    eapply Nat.le_trans; [apply sample_loop_length|].
    rewrite range_length. lia. }
  lia.
Qed.

End MoreMotionFacts.

Lemma insert_desc_perm (x : Q * Q) (l : list (Q * Q)) :
  Permutation (insert_desc x l) (x :: l).
Proof.
  induction l as [|y l IH]; simpl; [reflexivity|].
  destruct (Qgtb (snd y) (snd x)).
  - rewrite IH. apply perm_swap.
  - reflexivity.
Qed.

Lemma sort_desc_perm (l : list (Q * Q)) : Permutation (sort_desc l) l.
Proof.
  induction l as [|x l IH]; [reflexivity|].
  unfold sort_desc in *. simpl. rewrite insert_desc_perm. now constructor.
Qed.

Lemma insert_desc_sorted (x : Q * Q) (l : list (Q * Q)) :
  StronglySorted (fun a b => snd b <= snd a) l ->
  StronglySorted (fun a b => snd b <= snd a) (insert_desc x l).
Proof.
  induction l as [|y l IH]; intros Hs; simpl.
  - constructor; constructor.
  - inversion Hs as [|? ? Hl Hy]; subst.
    destruct (Qgtb (snd y) (snd x)) eqn:E.
    + apply Qltb_true in E. constructor; [now apply IH|].
      apply List.Forall_forall. intros z Hz.
      apply (Permutation_in _ (insert_desc_perm x l)) in Hz.
      destruct Hz as [<-|Hz]; [lra|].
      rewrite List.Forall_forall in Hy. now apply Hy.
    + apply Qltb_false in E. constructor; [exact Hs|].
      constructor; [exact E|].
      apply List.Forall_forall. intros z Hz. rewrite List.Forall_forall in Hy.
      specialize (Hy z Hz). lra.
Qed.

Lemma sort_desc_sorted (l : list (Q * Q)) :
  StronglySorted (fun a b => snd b <= snd a) (sort_desc l).
Proof.
  induction l as [|x l IH]; [constructor|].
  unfold sort_desc in *. simpl. now apply insert_desc_sorted.
Qed.

Lemma sorted_split {A} (R : A -> A -> Prop) (l1 l2 : list A) :
  StronglySorted R (l1 ++ l2) -> forall a b, In a l1 -> In b l2 -> R a b.
Proof.
  induction l1 as [|x l1 IH]; intros Hs a b Ha Hb; [destruct Ha|].
  simpl in Hs. inversion Hs as [|? ? Hl Hx]; subst.
  destruct Ha as [<-|Ha].
  - rewrite List.Forall_forall in Hx. apply Hx. apply in_or_app. now right.
  - now apply IH.
Qed.

(** X5: the samples are ranked without loss or duplication, and the [n] that
    are selected score at least as high as every sample that is left out. *)
Theorem top_scores_selected (scores : list (Q * Q)) (n : nat) :
  Permutation (sort_desc scores) scores /\
  forall chosen left_out,
    In chosen (firstn n (sort_desc scores)) ->
    In left_out (skipn n (sort_desc scores)) ->
    snd left_out <= snd chosen.
Proof.
  split; [apply sort_desc_perm|].
  intros a b Ha Hb.
  pose proof (sort_desc_sorted scores) as Hs.
  rewrite <- (firstn_skipn n (sort_desc scores)) in Hs.
  exact (sorted_split _ _ _ Hs a b Ha Hb).
Qed.

(** A witness of [moments_fit_in_clip]: the two moments of [step_clip]. *)
Lemma moments_fit_in_clip_witness :
  Forall (fits 10)
    (detect_interesting_moments Q brightness_diff (Some step_clip) 2 (fun _ => 0)).
Proof.
  apply (moments_fit_in_clip brightness_diff step_clip 10 2 (fun _ => 0)).
  - reflexivity.
  - reflexivity.
  - intros _. split; discriminate.
Defined.

(** ** Runs of the pipeline *)

Lemma open_handles_prints (evs : list event) (opened : list nat) :
  forallb is_print evs = true -> open_handles evs opened = opened.
Proof.
  revert opened. induction evs as [|e evs IH]; intros opened H; [reflexivity|].
  simpl in H. apply andb_true_iff in H. destruct H as [He H].
  destruct e; try discriminate. simpl. now apply IH.
Qed.

Lemma written_prints (evs : list event) :
  forallb is_print evs = true -> written evs = [].
Proof.
  induction evs as [|e evs IH]; intros H; [reflexivity|].
  simpl in H. apply andb_true_iff in H. destruct H as [He H].
  destruct e; try discriminate. simpl. now apply IH.
Qed.

Lemma open_handles_closes (hs : list nat) :
  forall opened, incl opened hs -> open_handles (map Close hs) opened = [].
Proof.
  induction hs as [|h hs IH]; intros opened Hincl; simpl.
  - destruct opened as [|x opened]; [reflexivity|]. destruct (Hincl x). now left.
  - apply IH. intros x Hx. apply filter_In in Hx. destruct Hx as [Hx Hne].
    destruct (Hincl x Hx) as [<-|Hin]; [|exact Hin].
    rewrite Nat.eqb_refl in Hne. discriminate.
Qed.

Lemma open_handles_repeat (e : event) (n : nat) (opened : list nat) :
  e = CloseClip \/ e = CloseAudio ->
  open_handles (repeat e n) opened = opened.
Proof.
  intros He. induction n as [|n IH]; [reflexivity|].
  destruct He as [-> | ->]; simpl; exact IH.
Qed.

Lemma written_closes (hs : list nat) : written (map Close hs) = [].
Proof. induction hs as [|h hs IH]; [reflexivity | exact IH]. Qed.

Lemma written_repeat (e : event) (n : nat) :
  e = CloseClip \/ e = CloseAudio -> written (repeat e n) = [].
Proof.
  intros He. induction n as [|n IH]; [reflexivity|].
  destruct He as [-> | ->]; simpl; exact IH.
Qed.

Section RunFacts.

Context (L : Media).

Lemma adds_refl (w : world L) : adds w w [].
Proof. unfold adds. now rewrite app_nil_r. Qed.

Lemma adds_trans (w1 w2 w3 : world L) (e1 e2 : list event) :
  adds w1 w2 e1 -> adds w2 w3 e2 -> adds w1 w3 (e1 ++ e2).
Proof.
  intros (T1 & C1 & S1) (T2 & C2 & S2). unfold adds.
  rewrite T2, T1, C2, C1, S2, S1, app_assoc. auto.
Qed.

Lemma quiet_ret {A} (a : A) : quiet (ret (L := L) a).
Proof. intros w. exists []. split; [apply adds_refl | reflexivity]. Qed.

Lemma quiet_raise {A} (e : string) : quiet (raise (L := L) (A := A) e).
Proof. intros w. exists []. split; [apply adds_refl | reflexivity]. Qed.

Lemma quiet_lift {A} (o : outcome A) : quiet (lift (L := L) o).
Proof. intros w. exists []. split; [apply adds_refl | reflexivity]. Qed.

Lemma quiet_read {A} (f : world L -> A) : quiet (read f).
Proof. intros w. exists []. split; [apply adds_refl | reflexivity]. Qed.

Lemma quiet_print (l : line) : quiet (print (L := L) l).
Proof. intros w. exists [Print l]. split; [|reflexivity]. now repeat split. Qed.

Lemma quiet_append_audio (a : audio L) : quiet (append_audio a).
Proof. intros w. exists []. split; [|reflexivity]. unfold adds. simpl. now rewrite app_nil_r. Qed.

Lemma quiet_bind {A B} (m : M L A) (k : A -> M L B) :
  quiet m -> (forall a, quiet (k a)) -> quiet (bind m k).
Proof.
  intros Hm Hk w. unfold bind.
  destruct (Hm w) as (e1 & H1 & P1).
  destruct (m w) as [w1 [e|a]]; cbn [fst] in *.
  - exists e1. now split.
  - destruct (Hk a w1) as (e2 & H2 & P2).
    exists (e1 ++ e2). split; [eapply adds_trans; eassumption|].
    rewrite forallb_app, P1, P2. reflexivity.
Qed.

Lemma quiet_try_except {A} (m : M L A) (handler : string -> M L A) :
  quiet m -> (forall e, quiet (handler e)) -> quiet (try_except m handler).
Proof.
  intros Hm Hk w. unfold try_except.
  destruct (Hm w) as (e1 & H1 & P1).
  destruct (m w) as [w1 [e|a]]; cbn [fst] in *.
  - destruct (Hk e w1) as (e2 & H2 & P2).
    exists (e1 ++ e2). split; [eapply adds_trans; eassumption|].
    rewrite forallb_app, P1, P2. reflexivity.
  - exists e1. now split.
Qed.

Ltac quiet_step :=
  first
    [ apply quiet_ret | apply quiet_raise | apply quiet_lift | apply quiet_print
    | apply quiet_read | apply quiet_append_audio
    | apply quiet_bind; [|intros ?]
    | apply quiet_try_except; [|intros ?]
    | match goal with
      | |- quiet (match ?x with _ => _ end) => destruct x
      end ].

Lemma caption_loop_quiet (style : TextStyle) (final_clip : clip L)
    (captions : list Caption) :
  forall caption_clips, quiet (caption_loop L style final_clip captions caption_clips).
Proof.
  induction captions as [|cap rest IH]; intros acc; simpl.
  - apply quiet_ret.
  - destruct (strip (default "" (cap_text cap))); [apply IH|].
    repeat quiet_step. apply IH.
Qed.

Lemma caption_stage_quiet (final_clip : clip L) (captions : list Caption)
    (text_style : option TextStyle) :
  quiet (caption_stage L final_clip captions text_style).
Proof.
  unfold caption_stage, add_captions.
  destruct captions as [|cap rest]; [apply quiet_ret|].
  apply quiet_try_except; [|intros e; repeat quiet_step].
  apply quiet_bind; [apply quiet_lift|intros _].
  apply quiet_bind; [apply caption_loop_quiet|intros clips].
  repeat quiet_step.
Qed.

Lemma music_stage_quiet (final_clip : clip L) (music_path : option string)
    (music_fade : Q) :
  quiet (music_stage L final_clip music_path music_fade).
Proof.
  unfold music_stage, add_music, fit_music, apply_fade, apply_volume.
  repeat quiet_step.
Qed.


(** The release loops, event by event. *)
Lemma close_sources_run (l : list (nat * source L)) :
  forall w, exists w',
    close_sources L l w = (w', Return tt) /\ adds w w' (closes l) /\
    audio_clips w' = audio_clips w.
Proof.
  induction l as [|[h s] rest IH]; intros w; simpl.
  - exists w. split; [reflexivity|]. split; [apply adds_refl | reflexivity].
  - unfold close_source. unfold_M.
    destruct (source_close L s) as [e|[]];
      match goal with
      | |- context [close_sources L rest ?w1] =>
          destruct (IH w1) as (w2 & E2 & (T2 & C2 & S2) & A2); exists w2;
          split; [exact E2|]; split; [|exact A2];
          unfold adds; rewrite T2, C2, S2; cbn [trace clips_to_compile source_clips];
          rewrite <- app_assoc; auto
      end.
Qed.

Lemma close_clips_run (l : list (clip L)) :
  forall w, exists w',
    close_clips L l w = (w', Return tt) /\
    adds w w' (repeat CloseClip (length l)) /\
    audio_clips w' = audio_clips w.
Proof.
  induction l as [|c rest IH]; intros w; simpl.
  - exists w. split; [reflexivity|]. split; [apply adds_refl | reflexivity].
  - unfold_M.
    destruct (clip_close L c) as [e|[]];
      match goal with
      | |- context [close_clips L rest ?w1] =>
          destruct (IH w1) as (w2 & E2 & (T2 & C2 & S2) & A2); exists w2;
          split; [exact E2|]; split; [|exact A2];
          unfold adds; rewrite T2, C2, S2; cbn [trace clips_to_compile source_clips];
          rewrite <- app_assoc; auto
      end.
Qed.

Lemma close_audios_run (l : list (audio L)) :
  forall w, exists w',
    close_audios L l w = (w', Return tt) /\
    adds w w' (repeat CloseAudio (length l)) /\
    audio_clips w' = audio_clips w.
Proof.
  induction l as [|c rest IH]; intros w; simpl.
  - exists w. split; [reflexivity|]. split; [apply adds_refl | reflexivity].
  - unfold_M.
    destruct (audio_close L c) as [e|[]];
      match goal with
      | |- context [close_audios L rest ?w1] =>
          destruct (IH w1) as (w2 & E2 & (T2 & C2 & S2) & A2); exists w2;
          split; [exact E2|]; split; [|exact A2];
          unfold adds; rewrite T2, C2, S2; cbn [trace clips_to_compile source_clips];
          rewrite <- app_assoc; auto
      end.
Qed.

(** The three ways in which the writer ends. *)
Lemma write_stage_run (final_clip : clip L) (output_filename : string) (w : world L) :
  let p := path_join OUTPUT_FOLDER output_filename in
  exists w' r,
    write_stage L final_clip output_filename w = (w', r) /\
    ((r = Return p /\
      trace w' = trace w ++ [Print (Writing p); WriteVideo p; Print Written; CloseClip]
                   ++ repeat CloseClip (length (clips_to_compile w))
                   ++ closes (source_clips w)
                   ++ repeat CloseAudio (length (audio_clips w))) \/
     (exists e, r = Raise e /\
      write_videofile L final_clip p = Raise e /\
      trace w' = trace w ++ [Print (Writing p); WriteVideo p; Print (WriteFailed e)]
                   ++ closes (source_clips w)
                   ++ repeat CloseAudio (length (audio_clips w))) \/
     (exists e, r = Raise e /\
      clip_close L final_clip = Raise e /\
      trace w' = trace w ++ [Print (Writing p); WriteVideo p; Print Written; CloseClip])).
Proof.
  cbv zeta. unfold write_stage. unfold_M.
  destruct (write_videofile L final_clip (path_join OUTPUT_FOLDER output_filename))
    as [e|[]] eqn:Ew; unfold_M.
  - match goal with
    | |- context [close_sources L ?l ?w1] =>
        destruct (close_sources_run l w1) as (w2 & E2 & (T2 & C2 & S2) & A2)
    end.
    rewrite E2. unfold_M.
    destruct (close_audios_run (audio_clips w2) w2) as (w3 & E3 & (T3 & C3 & S3) & A3).
    rewrite E3. unfold_M.
    eexists _, _. split; [reflexivity|]. right. left.
    exists e. split; [reflexivity|]. split; [reflexivity|].
    rewrite T3, T2, A2. cbn [trace audio_clips source_clips].
    rewrite <- !app_assoc. reflexivity.
  - destruct (clip_close L final_clip) as [e|[]] eqn:Ec; unfold_M.
    + eexists _, _. split; [reflexivity|]. right. right.
      exists e. split; [reflexivity|]. split; [reflexivity|].
      rewrite <- !app_assoc. reflexivity.
    + match goal with
      | |- context [close_clips L ?l ?w1] =>
          destruct (close_clips_run l w1) as (w2 & E2 & (T2 & C2 & S2) & A2)
      end.
      rewrite E2. unfold_M.
      destruct (close_sources_run (source_clips w2) w2)
        as (w3 & E3 & (T3 & C3 & S3) & A3).
      rewrite E3. unfold_M.
      destruct (close_audios_run (audio_clips w3) w3)
        as (w4 & E4 & (T4 & C4 & S4) & A4).
      rewrite E4. unfold_M.
      eexists _, _. split; [reflexivity|]. left.
      split; [reflexivity|].
      rewrite T4, T3, T2, A3, A2, S2. cbn [trace audio_clips source_clips clips_to_compile].
      rewrite <- !app_assoc. reflexivity.
Qed.

(** The two ways in which the concatenation ends. *)
Lemma concatenate_run (clips : list (clip L)) (w : world L) :
  exists w' r evs,
    concatenate L clips w = (w', r) /\ forallb is_print evs = true /\
    audio_clips w' = audio_clips w /\
    ((exists c, r = Return c /\ adds w w' evs) \/
     (exists e, r = Raise e /\ adds w w' (evs ++ closes (source_clips w)))).
Proof.
  unfold concatenate, number. unfold_M.
  destruct (concatenate_videoclips L clips) as [e|c]; unfold_M.
  - match goal with
    | |- context [close_sources L ?l ?w1] =>
        destruct (close_sources_run l w1) as (w2 & E2 & (T2 & C2 & S2) & A2)
    end.
    rewrite E2. unfold_M.
    exists w2, (Raise e), [Print (Concatenating (length clips)); Print (ConcatFailed e)].
    split; [reflexivity|]. split; [reflexivity|]. split; [exact A2|].
    right. exists e. split; [reflexivity|].
    unfold adds. rewrite T2, C2, S2. cbn [trace clips_to_compile source_clips].
    rewrite <- !app_assoc. auto.
  - destruct (clip_duration L c) as [d|]; unfold_M.
    + eexists _, (Return c),
        [Print (Concatenating (length clips)); Print (Concatenated d)].
      split; [reflexivity|]. split; [reflexivity|]. split; [reflexivity|].
      left. exists c. split; [reflexivity|].
      unfold adds. cbn [trace clips_to_compile source_clips].
      rewrite <- !app_assoc. auto.
    + match goal with
      | |- context [close_sources L ?l ?w1] =>
          destruct (close_sources_run l w1) as (w2 & E2 & (T2 & C2 & S2) & A2)
      end.
      rewrite E2. unfold_M.
      eexists w2, (Raise _),
        [Print (Concatenating (length clips)); Print (ConcatFailed _)].
      split; [reflexivity|]. split; [reflexivity|]. split; [exact A2|].
      right. eexists. split; [reflexivity|].
      unfold adds. rewrite T2, C2, S2. cbn [trace clips_to_compile source_clips].
      rewrite <- !app_assoc. auto.
Qed.


Lemma create_reel_run (video_paths : list string)
    (video_settings : list VideoSetting) (captions : list Caption)
    (music_path : option string) (mute_videos : bool)
    (text_style : option TextStyle) (music_fade : Q) (output_filename : string)
    (settings_map : gmap string VideoSetting) (w1 : world L) :
  build_settings_map video_paths video_settings ∅ = Return settings_map ->
  transform_stage L settings_map mute_videos 0 video_paths (start_world L)
    = (w1, Return tt) ->
  length (clips_to_compile w1) = length (source_clips w1) ->
  exists w r,
    create_reel L video_paths video_settings captions music_path mute_videos
                text_style music_fade output_filename (start_world L) = (w, r) /\
    run_end w1 (path_join OUTPUT_FOLDER output_filename) w r.
Proof.
  intros Hmap Hstage Hlen.
  unfold create_reel. rewrite Hmap. unfold_M. rewrite Hstage. unfold_M.
  destruct (clips_to_compile w1) as [|c0 cs] eqn:Ecs.
  - destruct (close_sources_run (source_clips w1) w1) as (w2 & E2 & (T2 & _) & _).
    rewrite E2. unfold_M. eexists _, _. split; [reflexivity|].
    now apply end_no_clips.
  - assert (Hsrc : source_clips w1 <> []).
    { intros E. rewrite E in Hlen. discriminate. }
    destruct (concatenate_run (c0 :: cs) w1)
      as (w2 & r2 & evs2 & E2 & P2 & A2 & [(c & -> & T2 & C2 & S2) | (e & -> & T2 & _)]).
    2: { rewrite E2. eexists _, _. split; [reflexivity|].
         eapply end_concat_failed; [exact P2 | exact T2]. }
    rewrite E2.
    destruct (caption_stage_returns L c captions text_style w2) as (w3 & c3 & E3).
    destruct (caption_stage_quiet c captions text_style w2)
      as (evs3 & (T3 & C3 & S3) & P3).
    rewrite E3 in *. cbn [fst] in *.
    destruct (music_stage_returns L c3 music_path music_fade w3) as (w4 & c4 & E4).
    destruct (music_stage_quiet c3 music_path music_fade w3)
      as (evs4 & (T4 & C4 & S4) & P4).
    rewrite E4 in *. cbn [fst] in *.
    assert (P : forallb is_print (evs2 ++ evs3 ++ evs4) = true).
    { rewrite !forallb_app, P2, P3, P4. reflexivity. }
    assert (T : trace w4 = trace w1 ++ evs2 ++ evs3 ++ evs4).
    { rewrite T4, T3, T2, <- !app_assoc. reflexivity. }
    assert (S : source_clips w4 = source_clips w1) by congruence.
    destruct (write_stage_run c4 output_filename w4) as (w5 & r5 & E5 & Hend).
    cbv zeta in Hend. rewrite E5.
    exists w5, r5. split; [reflexivity|].
    destruct Hend as [(-> & T5) | [(e & -> & _ & T5) | (e & -> & _ & T5)]];
      rewrite T, ?S in T5.
    + eapply end_written; [exact P|]. rewrite T5, <- !app_assoc. reflexivity.
    + eapply end_write_failed; [exact P|]. rewrite T5, <- !app_assoc. reflexivity.
    + eapply end_close_failed; [exact P | exact Hsrc |].
      rewrite T5, <- !app_assoc. reflexivity.
Qed.

End RunFacts.

Lemma incl_filter_keep {A} (f : A -> bool) (l l' : list A) :
  incl l l' -> incl (List.filter f l) l'.
Proof.
  intros H x Hx. apply H. apply filter_In in Hx. tauto.
Qed.

Lemma incl_after_close (h : nat) (l l' : list nat) :
  incl l l' ->
  incl (List.filter (fun x => negb (Nat.eqb x h)) (h :: l)) l'.
Proof.
  intros H. simpl. rewrite Nat.eqb_refl. simpl. now apply incl_filter_keep.
Qed.

Section TransformFacts.

Context (L : Media).

Lemma py_in_identity (h : nat) (video_clip : source L) (kept : list (nat * source L)) :
  identity_eq L ->
  py_in L h video_clip kept
    = Return (existsb (fun h' => Nat.eqb h' h) (map fst kept)).
Proof.
  intros Hid. induction kept as [|[h' s'] rest IH]; simpl; [reflexivity|].
  destruct (Nat.eqb h' h); [reflexivity|]. now rewrite Hid, IH.
Qed.

Lemma existsb_handle (h : nat) (l : list nat) :
  existsb (fun h' => Nat.eqb h' h) l = true -> In h l.
Proof.
  intros H. apply existsb_exists in H. destruct H as (x & Hx & E).
  apply Nat.eqb_eq in E. now subst.
Qed.

(** With object identity as equality, one iteration of the transform loop
    returns and keeps every open handle in [source_clips]. *)
Lemma transform_one_tracked (settings_map : gmap string VideoSetting)
    (mute_videos : bool) (i : nat) (video_path : string) (w : world L) :
  identity_eq L ->
  tracked w ->
  exists w',
    transform_one L settings_map mute_videos i video_path w = (w', Return tt) /\
    tracked w'.
Proof.
  intros Hid (Hopen & Hwr).
  unfold transform_one, process_source, on_error, subclip_compat, crop,
    close_source.
  unfold_M.
  repeat (first [rewrite (py_in_identity _ _ _ Hid) | step_oracle]; unfold_M).
  all: repeat match goal with u : unit |- _ => destruct u end.
  all: eexists; split; [reflexivity|].
  all: unfold tracked; cbn [trace clips_to_compile source_clips audio_clips].
  all: repeat rewrite <- app_assoc; cbn [app].
  all: rewrite open_handles_app, written_app, Hwr; cbn [open_handles written app].
  all: split; [|reflexivity].
  all: repeat first [apply incl_after_close | apply incl_filter_keep].
  all: try exact Hopen.
  all: try (apply incl_cons; [|exact Hopen]; apply existsb_handle;
            apply negb_false_iff; assumption).
  all: rewrite map_app; cbn [map fst];
    (apply incl_cons; [apply in_or_app; right; now left | now apply incl_appl]).
Qed.

Lemma transform_stage_tracked (settings_map : gmap string VideoSetting)
    (mute_videos : bool) (video_paths : list string) :
  identity_eq L ->
  forall (i : nat) (w : world L),
    tracked w ->
    exists w',
      transform_stage L settings_map mute_videos i video_paths w = (w', Return tt) /\
      tracked w'.
Proof.
  intros Hid. induction video_paths as [|p rest IH]; intros i w Hw; simpl.
  - exists w. split; [reflexivity | exact Hw].
  - destruct (transform_one_tracked settings_map mute_videos i p w Hid Hw)
      as (w1 & E1 & H1).
    destruct (IH (S i) w1 H1) as (w2 & E2 & H2).
    exists w2. split; [|exact H2]. unfold bind. now rewrite E1.
Qed.

(** One iteration either leaves the lists alone or appends one clip with
    the handle of this iteration, loaded from this path. *)
Lemma transform_one_grows (settings_map : gmap string VideoSetting)
    (mute_videos : bool) (i : nat) (video_path : string) (w : world L) :
  let w' := fst (transform_one L settings_map mute_videos i video_path w) in
  audio_clips w' = audio_clips w /\
  ((clips_to_compile w' = clips_to_compile w /\ source_clips w' = source_clips w) \/
   (exists c s,
      clips_to_compile w' = clips_to_compile w ++ [c] /\
      source_clips w' = source_clips w ++ [(i, s)] /\
      path_exists L video_path = true /\
      VideoFileClip L video_path = Return (Some s))).
Proof.
  cbv zeta.
  unfold transform_one, process_source, on_error, subclip_compat, crop,
    close_source.
  unfold_M.
  repeat (step_oracle; unfold_M).
  all: split; [reflexivity|].
  all: try (left; split; reflexivity).
  all: right; eexists _, _; split; [reflexivity|]; split; [reflexivity|].
  all: split; [|reflexivity].
  all: match goal with
       | H : negb (path_exists _ _) = false |- _ =>
           apply negb_false_iff in H; exact H
       end.
Qed.

End TransformFacts.

Section PipelineFacts.

Context (L : Media).

Lemma closes_map (l : list (nat * source L)) : closes l = map Close (map fst l).
Proof. unfold closes. now rewrite map_map. Qed.

(** The calls to [write_videofile] in a run of [create_reel]. *)
Lemma create_reel_writes (video_paths : list string)
    (video_settings : list VideoSetting) (captions : list Caption)
    (music_path : option string) (mute_videos : bool)
    (text_style : option TextStyle) (music_fade : Q) (output_filename : string) :
  let run := create_reel L video_paths video_settings captions music_path
                         mute_videos text_style music_fade output_filename
                         (start_world L) in
  let p := path_join OUTPUT_FOLDER output_filename in
  (written (trace (fst run)) = [] \/ written (trace (fst run)) = [p]) /\
  (forall x, snd run = Return x -> x = p /\ written (trace (fst run)) = [p]).
Proof.
  cbv zeta.
  destruct (build_settings_map video_paths video_settings ∅) as [e|settings_map] eqn:Hmap.
  { unfold create_reel. rewrite Hmap. unfold_M. split; [now left | discriminate]. }
  destruct (transform_stage_inv L settings_map mute_videos video_paths 0
              (start_world L) (start_world_inv L))
    as (w1 & r1 & E1 & (_ & Hlen & Hwr) & _).
  destruct r1 as [e|[]].
  { unfold create_reel. rewrite Hmap. unfold_M. rewrite E1.
    cbn [fst snd]. split; [now left | discriminate]. }
  destruct (create_reel_run L video_paths video_settings captions music_path
              mute_videos text_style music_fade output_filename settings_map w1
              Hmap E1 Hlen) as (w & r & Erun & Hend).
  rewrite Erun. cbn [fst snd].
  destruct Hend as [w Hc T | w evs e P T | w evs k a P T | w evs a e P T | w evs e P _ T];
    rewrite T, !written_app, Hwr, ?(written_prints _ P), ?closes_map, ?written_closes,
      ?written_repeat by auto; cbn [written app];
    rewrite ?written_app, ?written_closes, ?written_repeat by auto; cbn [app].
  all: split; [auto|]; try discriminate.
  intros x Hx. injection Hx as <-. now split.
Qed.

(** X6: [create_reel] calls [write_videofile] at most once, and only on
    [outputs/<output_filename>]; when it returns, it returns that path and
    has written exactly once. *)
Theorem writes_at_most_once (video_paths : list string)
    (video_settings : list VideoSetting) (captions : list Caption)
    (music_path : option string) (mute_videos : bool)
    (text_style : option TextStyle) (music_fade : Q) (output_filename : string) :
  let run := create_reel L video_paths video_settings captions music_path
                         mute_videos text_style music_fade output_filename
                         (start_world L) in
  let p := path_join OUTPUT_FOLDER output_filename in
  (written (trace (fst run)) = [] \/ written (trace (fst run)) = [p]) /\
  (forall x, snd run = Return x -> x = p /\ written (trace (fst run)) = [p]).
Proof.
  exact (create_reel_writes video_paths video_settings captions music_path
           mute_videos text_style music_fade output_filename).
Qed.

(** X7: when distinct clip objects never compare equal, [create_reel]
    leaves no source handle open, however it ends, with one exception: when
    the [close()] of the final clip raises after a successful write, the
    release loops are skipped. *)
Theorem handles_released (video_paths : list string)
    (video_settings : list VideoSetting) (captions : list Caption)
    (music_path : option string) (mute_videos : bool)
    (text_style : option TextStyle) (music_fade : Q) (output_filename : string) :
  identity_eq L ->
  let run := create_reel L video_paths video_settings captions music_path
                         mute_videos text_style music_fade output_filename
                         (start_world L) in
  open_handles (trace (fst run)) [] = [] \/
  exists e before,
    snd run = Raise e /\
    trace (fst run) = before ++ [Print Written; CloseClip].
Proof.
  intros Hid. cbv zeta.
  destruct (build_settings_map video_paths video_settings ∅) as [e|settings_map] eqn:Hmap.
  { unfold create_reel. rewrite Hmap. unfold_M. now left. }
  assert (Hstart : tracked (start_world L)).
  { split; [intros h []|reflexivity]. }
  destruct (transform_stage_tracked L settings_map mute_videos video_paths Hid 0
              (start_world L) Hstart) as (w1 & E1 & Hopen & _).
  destruct (transform_stage_inv L settings_map mute_videos video_paths 0
              (start_world L) (start_world_inv L))
    as (w1' & r1 & E1' & (_ & Hlen & _) & _).
  rewrite E1 in E1'. injection E1' as <- <-.
  destruct (create_reel_run L video_paths video_settings captions music_path
              mute_videos text_style music_fade output_filename settings_map w1
              Hmap E1 Hlen) as (w & r & Erun & Hend).
  rewrite Erun. cbn [fst snd].
  assert (Hall : forall evs rest,
            forallb is_print evs = true ->
            open_handles (trace w1 ++ evs ++ closes (source_clips w1) ++ rest) []
            = open_handles rest []).
  { intros evs rest P.
    rewrite !open_handles_app, (open_handles_prints _ _ P), closes_map.
    rewrite open_handles_closes; [reflexivity | exact Hopen]. }
  destruct Hend as [w Hc T | w evs e P T | w evs k a P T | w evs a e P T | w evs e P _ T].
  - left. rewrite T. rewrite <- (app_nil_r (closes _)).
    now rewrite <- (app_nil_l (closes _ ++ [])), (Hall [] []).
  - left. rewrite T. rewrite <- (app_nil_r (closes _)). now rewrite (Hall evs []).
  - left. rewrite T.
    rewrite !open_handles_app, (open_handles_prints _ _ P). cbn [open_handles].
    rewrite !open_handles_repeat by auto.
    rewrite closes_map. apply open_handles_closes. exact Hopen.
  - left. rewrite T.
    rewrite !open_handles_app, (open_handles_prints _ _ P). cbn [open_handles].
    rewrite !open_handles_repeat by auto.
    rewrite closes_map. apply open_handles_closes. exact Hopen.
  - right. exists e, (trace w1 ++ evs ++ [Print (Writing (path_join OUTPUT_FOLDER output_filename));
                                          WriteVideo (path_join OUTPUT_FOLDER output_filename)]).
    split; [reflexivity|]. rewrite T, <- !app_assoc. reflexivity.
Qed.

Lemma transform_stage_order (settings_map : gmap string VideoSetting)
    (mute_videos : bool) (all_paths : list string) (rest : list string) :
  forall (i : nat) (w : world L),
    (forall k, nth_error rest k = nth_error all_paths (i + k)) ->
    StronglySorted lt (map fst (source_clips w)) ->
    Forall (fun kept => (fst kept < i)%nat /\ from_path L all_paths kept) (source_clips w) ->
    let w' := fst (transform_stage L settings_map mute_videos i rest w) in
    StronglySorted lt (map fst (source_clips w')) /\
    Forall (fun kept => (fst kept < i + length rest)%nat /\ from_path L all_paths kept)
           (source_clips w') /\
    (length (source_clips w') <= length (source_clips w) + length rest)%nat /\
    audio_clips w' = audio_clips w.
Proof.
  induction rest as [|p rest IH]; intros i w Hnth Hsorted Hall; cbv zeta; simpl.
  - split; [exact Hsorted|]. split; [|split; [lia | reflexivity]].
    eapply List.Forall_impl; [|exact Hall]. intros kept [Hlt Hf]. split; [lia | exact Hf].
  - pose proof (transform_one_grows L settings_map mute_videos i p w) as Hstep.
    cbv zeta in Hstep. unfold bind.
    destruct (transform_one L settings_map mute_videos i p w) as [w1 r1].
    cbn [fst] in Hstep. destruct Hstep as (Ha & Hstep).
    assert (Hsorted1 : StronglySorted lt (map fst (source_clips w1))).
    { destruct Hstep as [(_ & ->) | (c & s & _ & -> & _)]; [exact Hsorted|].
      rewrite map_app. cbn [map fst].
      clear -Hsorted Hall. induction (source_clips w) as [|[h x] l IHl]; simpl.
      - constructor; constructor.
      - inversion Hsorted as [|? ? Hl Hh]; subst.
        inversion Hall as [|? ? [Hlt _] Hall']; subst. cbn [fst] in Hlt.
        constructor; [now apply IHl|].
        apply List.Forall_app. split; [exact Hh|]. constructor; [exact Hlt | constructor]. }
    assert (Hall1 : Forall (fun kept => (fst kept < S i)%nat /\ from_path L all_paths kept)
                           (source_clips w1)).
    { destruct Hstep as [(_ & ->) | (c & s & _ & -> & Hex & Hload)].
      - eapply List.Forall_impl; [|exact Hall]. intros kept [Hlt Hf]. split; [lia | exact Hf].
      - apply List.Forall_app. split.
        + eapply List.Forall_impl; [|exact Hall]. intros kept [Hlt Hf]. split; [lia | exact Hf].
        + constructor; [|constructor]. split; [cbn; lia|].
          exists p. cbn [fst snd]. split; [|split; assumption].
          specialize (Hnth 0%nat). simpl in Hnth. rewrite Nat.add_0_r in Hnth.
          now symmetry. }
    assert (Hlen1 : (length (source_clips w1) <= length (source_clips w) + 1)%nat).
    { destruct Hstep as [(_ & ->) | (c & s & _ & -> & _)];
        [lia | rewrite length_app; simpl; lia]. }
    destruct r1 as [e|[]]; cbn [fst].
    + split; [exact Hsorted1|]. split; [|split; [lia | exact Ha]].
      eapply List.Forall_impl; [|exact Hall1]. intros kept [Hlt Hf]. split; [lia | exact Hf].
    + assert (Hnth' : forall k, nth_error rest k = nth_error all_paths (S i + k)).
      { intros k. specialize (Hnth (S k)). simpl in Hnth. rewrite Hnth.
        f_equal. lia. }
      destruct (IH (S i) w1 Hnth' Hsorted1 Hall1) as (Hs2 & Ha2 & Hl2 & Hau2).
      cbv zeta in *.
      split; [exact Hs2|]. split; [|split; [lia | congruence]].
      eapply List.Forall_impl; [|exact Ha2]. intros kept [Hlt Hf]. split; [lia | exact Hf].
Qed.

(** X8: the transform stage keeps the order of the paths: each kept source
    was loaded from the path at the position of its handle, the handles are
    strictly increasing, every kept source has its compiled clip, and no
    path contributes twice. *)
Theorem transform_keeps_order (settings_map : gmap string VideoSetting)
    (mute_videos : bool) (video_paths : list string) :
  let w := fst (transform_stage L settings_map mute_videos 0 video_paths
                  (start_world L)) in
  StronglySorted lt (map fst (source_clips w)) /\
  Forall (from_path L video_paths) (source_clips w) /\
  length (clips_to_compile w) = length (source_clips w) /\
  (length (source_clips w) <= length video_paths)%nat.
Proof.
  cbv zeta.
  destruct (transform_stage_order settings_map mute_videos video_paths video_paths 0
              (start_world L) ltac:(reflexivity) ltac:(constructor)
              ltac:(constructor)) as (Hs & Ha & Hl & _).
  destruct (transform_stage_inv L settings_map mute_videos video_paths 0
              (start_world L) (start_world_inv L))
    as (w1 & r1 & E1 & (_ & Hlen & _) & _).
  rewrite E1 in *. cbn [fst] in *.
  split; [exact Hs|]. split; [|split; [exact Hlen | simpl in Hl; lia]].
  eapply List.Forall_impl; [|exact Ha]. now intros kept [_ Hf].
Qed.

End PipelineFacts.

(** ** The settings map *)

Lemma py_index_ok {A} (l : list A) (i : Z) :
  (- Z.of_nat (length l) <= i < Z.of_nat (length l))%Z ->
  exists x, py_index l i = Return x.
Proof.
  intros Hi. unfold py_index.
  set (n := Z.of_nat (length l)) in *.
  set (j := if (i <? 0)%Z then (i + n)%Z else i).
  assert (Hj : (0 <= j < n)%Z).
  { unfold j. destruct (i <? 0)%Z eqn:E; [apply Z.ltb_lt in E | apply Z.ltb_ge in E]; lia. }
  assert (E1 : (0 <=? j)%Z = true) by (apply Z.leb_le; lia).
  assert (E2 : (j <? n)%Z = true) by (apply Z.ltb_lt; lia).
  rewrite E1, E2. simpl.
  destruct (nth_error l (Z.to_nat j)) as [x|] eqn:E; [now exists x|].
  apply nth_error_None in E. lia.
Qed.

Lemma py_index_low {A} (l : list A) (i : Z) :
  (i < - Z.of_nat (length l))%Z ->
  py_index l i = Raise "list index out of range".
Proof.
  intros Hi. unfold py_index.
  assert (E0 : (i <? 0)%Z = true) by (apply Z.ltb_lt; lia).
  rewrite E0.
  assert (E1 : (0 <=? i + Z.of_nat (length l))%Z = false) by (apply Z.leb_gt; lia).
  now rewrite E1.
Qed.

Lemma py_index_In {A} (l : list A) (i : Z) (x : A) :
  py_index l i = Return x -> In x l.
Proof.
  unfold py_index.
  destruct ((0 <=? _)%Z && (_ <? _)%Z)%bool; [|discriminate].
  destruct (nth_error l _) as [y|] eqn:E; [|discriminate].
  intros H. injection H as <-. eapply nth_error_In. exact E.
Qed.

Lemma build_settings_map_ok (video_paths : list string)
    (video_settings : list VideoSetting) :
  forall settings_map,
    (exists m, build_settings_map video_paths video_settings settings_map = Return m)
    <-> Forall (usable_order (length video_paths)) video_settings.
Proof.
  induction video_settings as [|vs rest IH]; intros m0; simpl.
  - split; [constructor | now exists m0].
  - destruct (vs_order vs) as [order|] eqn:Eo.
    + destruct (order <? Z.of_nat (length video_paths))%Z eqn:Elt.
      * apply Z.ltb_lt in Elt.
        destruct (Z_le_gt_dec (- Z.of_nat (length video_paths)) order) as [Hge|Hlow].
        -- destruct (py_index_ok video_paths order ltac:(lia)) as (p & ->).
           rewrite IH. split.
           ++ intros H. constructor; [|exact H]. exists order. now split.
           ++ intros H. now inversion H.
        -- rewrite py_index_low by lia. split.
           ++ intros [m H]. discriminate.
           ++ intros H. inversion H as [|? ? (o & Ho & Hle) _]; subst.
              rewrite Eo in Ho. injection Ho as <-. lia.
      * apply Z.ltb_ge in Elt. rewrite IH. split.
        -- intros H. constructor; [|exact H]. exists order. split; [exact Eo | lia].
        -- intros H. now inversion H.
    + split.
      * intros [m H]. discriminate.
      * intros H. inversion H as [|? ? (o & Ho & _) _]; subst.
        rewrite Eo in Ho. discriminate.
Qed.

Lemma build_settings_map_error (video_paths : list string)
    (video_settings : list VideoSetting) :
  forall settings_map e,
    build_settings_map video_paths video_settings settings_map = Raise e ->
    e = "'order'" \/ e = "list index out of range".
Proof.
  induction video_settings as [|vs rest IH]; intros m0 e; simpl; [discriminate|].
  destruct (vs_order vs) as [order|]; [|intros H; injection H as <-; now left].
  destruct (order <? Z.of_nat (length video_paths))%Z; [|apply IH].
  destruct (py_index video_paths order) as [e'|p] eqn:Ep; [|apply IH].
  intros H. injection H as <-. right.
  unfold py_index in Ep.
  destruct ((0 <=? _)%Z && (_ <? _)%Z)%bool; [|now injection Ep as <-].
  destruct (nth_error video_paths _); [discriminate | now injection Ep as <-].
Qed.

(** X9: [create_reel] fails before it touches any video exactly when some
    settings entry has no [order] or an [order] below [-len(video_paths)]:
    it then raises the [KeyError] or [IndexError] with an empty trace. *)
Theorem bad_settings_fail_first (L : Media) (video_paths : list string)
    (video_settings : list VideoSetting) (captions : list Caption)
    (music_path : option string) (mute_videos : bool)
    (text_style : option TextStyle) (music_fade : Q) (output_filename : string) :
  ~ Forall (usable_order (length video_paths)) video_settings <->
  exists e,
    build_settings_map video_paths video_settings ∅ = Raise e /\
    (e = "'order'" \/ e = "list index out of range") /\
    create_reel L video_paths video_settings captions music_path mute_videos
                text_style music_fade output_filename (start_world L)
      = (start_world L, Raise e).
Proof.
  split.
  - intros Hbad.
    destruct (build_settings_map video_paths video_settings ∅) as [e|m] eqn:Hmap.
    + exists e. split; [reflexivity|].
      split; [eapply build_settings_map_error; exact Hmap|].
      unfold create_reel. rewrite Hmap. reflexivity.
    + exfalso. apply Hbad. apply (build_settings_map_ok _ _ ∅). now exists m.
  - intros (e & Hmap & _) Hok.
    apply (build_settings_map_ok _ _ ∅) in Hok. destruct Hok as [m Hm].
    rewrite Hm in Hmap. discriminate.
Qed.

Lemma build_settings_map_entries (video_paths : list string)
    (video_settings : list VideoSetting) :
  forall m0 m,
    build_settings_map video_paths video_settings m0 = Return m ->
    (forall p vs,
       m !! p = Some vs ->
       m0 !! p = Some vs \/
       (In vs video_settings /\
        exists order, vs_order vs = Some order /\ py_index video_paths order = Return p)) /\
    (forall p, is_Some (m0 !! p) -> is_Some (m !! p)) /\
    (forall vs order p,
       In vs video_settings -> vs_order vs = Some order ->
       (order < Z.of_nat (length video_paths))%Z ->
       py_index video_paths order = Return p ->
       is_Some (m !! p)).
Proof.
  induction video_settings as [|vs rest IH]; intros m0 m; simpl.
  - intros H. injection H as <-. repeat split; auto. intros ? ? ? [].
  - destruct (vs_order vs) as [order|] eqn:Eo; [|discriminate].
    destruct (order <? Z.of_nat (length video_paths))%Z eqn:Elt.
    + destruct (py_index video_paths order) as [e|p0] eqn:Ep; [discriminate|].
      intros H. destruct (IH _ _ H) as (H1 & H2 & H3).
      split; [|split].
      * intros p vs' Hl. destruct (H1 p vs' Hl) as [Hm0 | (Hin & o & Ho & Hp)].
        -- destruct (decide (p0 = p)) as [->|Hne].
           ++ rewrite lookup_insert_eq in Hm0. injection Hm0 as <-.
              right. split; [now left|]. now exists order.
           ++ rewrite lookup_insert_ne in Hm0 by exact Hne. now left.
        -- right. split; [now right|]. now exists o.
      * intros p Hs. apply H2.
        destruct (decide (p0 = p)) as [->|Hne];
          [rewrite lookup_insert_eq; eauto | now rewrite lookup_insert_ne].
      * intros vs' o p [<-|Hin] Ho Hlt Hp.
        -- rewrite Eo in Ho. injection Ho as <-. rewrite Ep in Hp. injection Hp as <-.
           apply H2. rewrite lookup_insert_eq. eauto.
        -- eapply H3; eassumption.
    + intros H. destruct (IH _ _ H) as (H1 & H2 & H3).
      split; [|split].
      * intros p vs' Hl. destruct (H1 p vs' Hl) as [Hm0 | (Hin & o & Ho & Hp)];
          [now left|]. right. split; [now right|]. now exists o.
      * exact H2.
      * intros vs' o p [<-|Hin] Ho Hlt Hp.
        -- rewrite Eo in Ho. injection Ho as <-. apply Z.ltb_ge in Elt. lia.
        -- eapply H3; eassumption.
Qed.

(** X10: in the settings map that [create_reel] builds, a path is matched
    exactly when some entry's [order] (below [len(video_paths)], negative
    values counting from the end) points at it, and the entry found under
    a path is one of those that point at it. *)
Theorem settings_map_entries (video_paths : list string)
    (video_settings : list VideoSetting) (settings_map : gmap string VideoSetting) :
  build_settings_map video_paths video_settings ∅ = Return settings_map ->
  forall p,
    (forall vs,
       settings_map !! p = Some vs ->
       In vs video_settings /\ In p video_paths /\
       exists order,
         vs_order vs = Some order /\ py_index video_paths order = Return p) /\
    (is_Some (settings_map !! p) <->
     exists vs order,
       In vs video_settings /\ vs_order vs = Some order /\
       (order < Z.of_nat (length video_paths))%Z /\
       py_index video_paths order = Return p).
Proof.
  intros Hmap p.
  destruct (build_settings_map_entries _ _ _ _ Hmap) as (H1 & _ & H3).
  assert (Hfound : forall vs, settings_map !! p = Some vs ->
            In vs video_settings /\
            exists order, vs_order vs = Some order /\ py_index video_paths order = Return p).
  { intros vs Hl. destruct (H1 p vs Hl) as [Hempty | H]; [|exact H].
    rewrite lookup_empty in Hempty. discriminate. }
  split.
  - intros vs Hl. destruct (Hfound vs Hl) as (Hin & o & Ho & Hp).
    split; [exact Hin|]. split; [eapply py_index_In; exact Hp|]. now exists o.
  - split.
    + intros [vs Hl]. destruct (Hfound vs Hl) as (Hin & o & Ho & Hp).
      exists vs, o. repeat split; try assumption.
      unfold py_index in Hp.
      destruct (o <? 0)%Z eqn:E0;
        destruct ((0 <=? _)%Z && (_ <? _)%Z)%bool eqn:Eb; try discriminate;
        apply andb_true_iff in Eb; destruct Eb as [Ea Eb];
        apply Z.leb_le in Ea; apply Z.ltb_lt in Eb;
        [apply Z.ltb_lt in E0 | apply Z.ltb_ge in E0]; lia.
    + intros (vs & o & Hin & Ho & Hlt & Hp). eapply H3; eassumption.
Qed.

(** ** The crop *)

Lemma py_int_div (a b : Z) (q : Q) :
  (0 <= a)%Z -> (0 < b)%Z -> q == inject_Z a / inject_Z b -> py_int q = (a / b)%Z.
Proof.
  intros Ha Hb Hq.
  assert (H0 : 0 <= inject_Z a / inject_Z b).
  { apply Qle_shift_div_l.
    - change 0 with (inject_Z 0). rewrite <- Zlt_Qlt. exact Hb.
    - rewrite Qmult_0_l. change 0 with (inject_Z 0). rewrite <- Zle_Qle. exact Ha. }
  rewrite py_int_floor by (rewrite Hq; exact H0).
  rewrite (Qfloor_comp _ _ Hq). symmetry. apply Zdiv_Qdiv.
Qed.

(** X11: for a clip of positive height, the crop leaves a clip that is not
    wider than 9:16 alone; a wider clip is cropped to the width
    [9 * h div 16], and the crop window lies within the frame and is centred
    to within one pixel. *)
Theorem crop_window (L : Media) (c : clip L) (w0 : world L) :
  (0 < clip_h L c)%Z ->
  ((16 * clip_w L c <= 9 * clip_h L c)%Z -> crop L c w0 = (w0, Return c)) /\
  ((9 * clip_h L c < 16 * clip_w L c)%Z ->
   exists x1 width,
     crop L c w0 = (w0, cropped L c x1 width) /\
     width = (9 * clip_h L c / 16)%Z /\
     (0 <= x1)%Z /\ (x1 + width <= clip_w L c)%Z /\
     (clip_w L c - 1 <= 2 * x1 + width <= clip_w L c)%Z).
Proof.
  intros Hh.
  set (W := clip_w L c) in *. set (H := clip_h L c) in *.
  assert (HhQ : 0 < inject_Z H).
  { change 0 with (inject_Z 0). rewrite <- Zlt_Qlt. exact Hh. }
  assert (Ediv : py_div (inject_Z W) (inject_Z H) = Return (inject_Z W / inject_Z H)).
  { unfold py_div. destruct (Qeq_bool (inject_Z H) 0) eqn:E; [|reflexivity].
    apply Qeq_bool_iff in E. lra. }
  assert (Hratio : 9 / 16 < inject_Z W / inject_Z H <-> (9 * H < 16 * W)%Z).
  { rewrite Zlt_Qlt, !inject_Z_mult.
    change (inject_Z 9) with 9. change (inject_Z 16) with 16.
    assert (E916 : 9 / 16 == 9 # 16) by reflexivity.
    rewrite E916. split; intros Hr.
    - apply (Qmult_lt_r _ _ (inject_Z H)) in Hr; [|exact HhQ].
      assert (E : inject_Z W / inject_Z H * inject_Z H == inject_Z W) by (field; lra).
      rewrite E in Hr. lra.
    - apply Qlt_shift_div_l; [exact HhQ | lra]. }
  unfold crop. unfold_M. fold W H. rewrite Ediv. unfold_M.
  split.
  - intros Hle.
    assert (E : Qgtb (inject_Z W / inject_Z H) (9 / 16) = false).
    { apply Qltb_false. apply Qnot_lt_le. intros Hr. apply Hratio in Hr. lia. }
    now rewrite E.
  - intros Hlt.
    assert (E : Qgtb (inject_Z W / inject_Z H) (9 / 16) = true).
    { apply Qltb_true. now apply Hratio. }
    rewrite E.
    assert (Ew : py_int (inject_Z H * 9 / 16) = (9 * H / 16)%Z).
    { apply py_int_div; [lia | lia |].
      rewrite inject_Z_mult. change (inject_Z 9) with 9. change (inject_Z 16) with 16.
      field. }
    rewrite Ew.
    set (width := (9 * H / 16)%Z) in *.
    assert (Hwidth : (0 <= width < W)%Z).
    { unfold width. Z.to_euclidean_division_equations. lia. }
    assert (Ex : py_int (inject_Z W / 2 - inject_Z width / 2) = ((W - width) / 2)%Z).
    { apply py_int_div; [lia | lia |].
      unfold Zminus. rewrite inject_Z_plus, inject_Z_opp.
      change (inject_Z 2) with 2. field. }
    rewrite Ex.
    exists ((W - width) / 2)%Z, width.
    split; [reflexivity|]. split; [reflexivity|].
    Z.to_euclidean_division_equations. lia.
Qed.

(** A witness of [crop_window]: the 405 x 720 clips of the studio are
    exactly 9:16 and are left alone. *)
Lemma crop_window_witness :
  crop studio (0, 1) (start_world studio) = (start_world studio, Return (0, 1)).
Proof.
  apply (proj1 (crop_window studio (0, 1) (start_world studio) eq_refl)).
  vm_compute. discriminate.
Defined.

(** ** More on the audio mixer *)



Section MoreMixerFacts.

Context (L : Media).

(** X13: a track that is at least as long as the timeline is not looped: it
    is cut at the timeline's end, nothing is printed and no second track is
    kept for release; by moviepy's contract for a cut the result lasts
    exactly as long as the timeline. *)
Theorem long_music_is_cut (music : audio L) (final_clip : clip L) (m f : Q)
    (w : world L) :
  subclip_contract L ->
  audio_duration L music = Some m ->
  clip_duration L final_clip = Some f ->
  0 <= f ->
  f <= m ->
  exists cut d,
    fit_music L music final_clip w = (w, Return cut) /\
    audio_subclipped L music 0 f = Return cut /\
    audio_duration L cut = Some d /\ d == f.
Proof.
  intros Hcut Hm Hf H0 Hlong.
  destruct (Hcut music m f Hm ltac:(lra)) as (cut & d & Ecut & Hd & Heq).
  exists cut, d. split; [|now repeat split].
  unfold fit_music. rewrite Hm, Hf. unfold number. unfold_M.
  assert (E : Qltb m f = false) by (apply Qltb_false; exact Hlong).
  rewrite E. unfold_M. rewrite Ecut. reflexivity.
Qed.

(** X14: a track of zero duration under a non-empty timeline cannot be
    looped: the division by zero is caught with the other music failures,
    the timeline is handed on without music and the run goes on. *)
Theorem empty_track_is_dropped (final_clip : clip L) (music_path : string)
    (music : audio L) (music_fade m f : Q) (w : world L) :
  music_path <> "" ->
  path_exists L music_path = true ->
  AudioFileClip L music_path = Return music ->
  audio_duration L music = Some m ->
  m == 0 ->
  clip_duration L final_clip = Some f ->
  0 < f ->
  exists w' e,
    music_stage L final_clip (Some music_path) music_fade w
      = (w', Return final_clip) /\
    trace w' = trace w ++ [Print (AddingMusic music_path); Print Looping;
                           Print (MusicFailed e)] /\
    audio_clips w' = audio_clips w ++ [music].
Proof.
  intros Hne Hex Hload Hm Hz Hf Hpos.
  unfold music_stage. destruct music_path as [|a r]; [contradiction|].
  rewrite Hex. unfold add_music, fit_music. unfold_M. rewrite Hload. unfold_M.
  rewrite Hm, Hf. unfold number. unfold_M.
  assert (E : Qltb m f = true) by (apply Qltb_true; lra).
  rewrite E. unfold_M. unfold loops_needed, py_div.
  assert (Ez : Qeq_bool m 0 = true) by (apply Qeq_bool_iff; exact Hz).
  rewrite Ez. unfold_M.
  eexists _, _. split; [reflexivity|]. cbn [trace audio_clips].
  rewrite <- !app_assoc. split; reflexivity.
Qed.

(** ** More on captions *)

(** X15: the stroke of a caption never has the colour of its fill. *)
Theorem stroke_contrasts (style : TextStyle) (final_w final_h : Z) (duration : Q)
    (font_to_use : option string) (text : string) (cap : Caption) :
  let spec := caption_spec style final_w final_h duration font_to_use text cap in
  tc_stroke_color spec <> tc_color spec.
Proof.
  cbv zeta. cbn [caption_spec tc_stroke_color tc_color].
  generalize (or_else (cap_color cap) (default "white" (ts_color style))).
  intros color. unfold stroke_for.
  destruct (String.eqb color "white") eqn:Ew.
  - apply String.eqb_eq in Ew. subst. discriminate.
  - destruct (String.eqb color "yellow") eqn:Ey; simpl.
    + apply String.eqb_eq in Ey. subst. discriminate.
    + intros H. apply String.eqb_neq in Ew. congruence.
Qed.

Lemma caption_loop_blank (style : TextStyle) (final_clip : clip L)
    (captions : list Caption) :
  Forall (fun cap => strip (default "" (cap_text cap)) = "") captions ->
  forall caption_clips w,
    caption_loop L style final_clip captions caption_clips w
      = (w, Return caption_clips).
Proof.
  induction 1 as [|cap rest Hcap _ IH]; intros acc w; simpl; [reflexivity|].
  rewrite Hcap. apply IH.
Qed.

(** X16: when every caption is blank after stripping, no overlay is built
    and the timeline is handed on as it is, without a call to [TextClip] or
    [CompositeVideoClip]; nothing is printed unless the import fails. *)
Theorem blank_captions_change_nothing (final_clip : clip L)
    (captions : list Caption) (text_style : option TextStyle) (w : world L) :
  Forall (fun cap => strip (default "" (cap_text cap)) = "") captions ->
  snd (caption_stage L final_clip captions text_style w) = Return final_clip /\
  (import_text L = Return tt ->
   caption_stage L final_clip captions text_style w = (w, Return final_clip)).
Proof.
  intros Hblank. unfold caption_stage.
  destruct captions as [|cap rest]; [now split|].
  unfold add_captions. unfold_M.
  destruct (import_text L) as [e|[]]; unfold_M; [split; [reflexivity|discriminate]|].
  rewrite (caption_loop_blank _ _ _ Hblank). split; [reflexivity | now intros _].
Qed.

End MoreMixerFacts.

(** A witness of [long_music_is_cut]: a 3 s track over a 2 s timeline. *)
Lemma long_music_is_cut_witness :
  exists cut d,
    fit_music studio 3 (0, 2) (start_world studio) = (start_world studio, Return cut) /\
    audio_subclipped studio 3 0 (2 - 0) = Return cut /\
    audio_duration studio cut = Some d /\ d == 2 - 0.
Proof.
  apply (long_music_is_cut studio 3 (0, 2) 3 (2 - 0) (start_world studio)
           studio_subclip); reflexivity || discriminate.
Defined.

(** A witness of [blank_captions_change_nothing]: two captions of spaces. *)
Lemma blank_captions_change_nothing_witness :
  caption_stage studio (0, 5)
    [ {| cap_text := Some "   "; cap_startTime := None; cap_endTime := None;
         cap_position := None; cap_color := None |};
      {| cap_text := None; cap_startTime := Some 1; cap_endTime := Some 2;
         cap_position := None; cap_color := None |} ]
    None (start_world studio)
  = (start_world studio, Return (0, 5)).
Proof.
  apply (blank_captions_change_nothing studio).
  - repeat constructor.
  - reflexivity.
Defined.

(** A witness of [empty_track_is_dropped]: a song in the silent studio. *)
Lemma empty_track_is_dropped_witness :
  exists w' e,
    music_stage silent_studio (0, 5) (Some "song.mp3") 2 (start_world silent_studio)
      = (w', Return (0, 5)) /\
    trace w' = [] ++ [Print (AddingMusic "song.mp3"); Print Looping;
                      Print (MusicFailed e)] /\
    audio_clips w' = [] ++ [(0 : audio silent_studio)].
Proof.
  apply (empty_track_is_dropped silent_studio (0, 5) "song.mp3" 0 2 0 (5 - 0)
           (start_world silent_studio));
    reflexivity || discriminate.
Defined.

(** ** More on the job registry *)

(** X17: a poll never touches another session and never adds a record: the
    two maps are returned unchanged, or the polled session is removed from
    both, and it is removed exactly when its state is "completed" or
    "failed". *)
Theorem poll_frame (path_exists : string -> bool) (session_id : string) (j : jobs) :
  let j' := snd (check_status path_exists session_id j) in
  let terminal := job_status j !! session_id = Some "completed" \/
                  job_status j !! session_id = Some "failed" in
  (terminal ->
   job_status j' = delete session_id (job_status j) /\
   job_results j' = delete session_id (job_results j)) /\
  (~ terminal -> j' = j) /\
  (forall other, other <> session_id ->
     job_status j' !! other = job_status j !! other /\
     job_results j' !! other = job_results j !! other).
Proof.
  cbv zeta. unfold check_status.
  destruct (job_status j !! session_id) as [status|] eqn:Es; simpl.
  - destruct (String.eqb status "completed") eqn:Ec.
    { apply String.eqb_eq in Ec. subst. simpl. split; [now intros _|].
      split; [intros H; exfalso; apply H; now left|].
      intros other Hne. split; apply lookup_delete_ne; congruence. }
    destruct (String.eqb status "failed") eqn:Ef.
    { apply String.eqb_eq in Ef. subst. simpl. split; [now intros _|].
      split; [intros H; exfalso; apply H; now right|].
      intros other Hne. split; apply lookup_delete_ne; congruence. }
    apply String.eqb_neq in Ec, Ef.
    assert (Hnt : ~ (Some status = Some "completed" \/ Some status = Some "failed")).
    { intros [H|H]; injection H as ->; contradiction. }
    destruct (String.eqb status "processing"); [|destruct (path_exists _)];
      simpl; (split; [intros H; contradiction|]); split; auto.
  - assert (Hnt : ~ (None = Some "completed" \/ None = Some "failed")).
    { intros [H|H]; discriminate. }
    destruct (path_exists _); simpl;
      (split; [intros H; exfalso; exact (Hnt H)|]); split; auto.
Qed.

Lemma poll_completed (path_exists : string -> bool) (session_id : string) (j : jobs) :
  job_status j !! session_id = Some "completed" ->
  check_status path_exists session_id j
    = (with_status "completed" (default ∅ (job_results j !! session_id)),
       {| job_status := delete session_id (job_status j);
          job_results := delete session_id (job_results j) |}).
Proof. intros H. unfold check_status. rewrite H. reflexivity. Qed.

Lemma poll_failed (path_exists : string -> bool) (session_id : string) (j : jobs) :
  job_status j !! session_id = Some "failed" ->
  check_status path_exists session_id j
    = (with_status "failed"
         (default {[ "error" := JStr "Unknown error" ]} (job_results j !! session_id)),
       {| job_status := delete session_id (job_status j);
          job_results := delete session_id (job_results j) |}).
Proof. intros H. unfold check_status. rewrite H. reflexivity. Qed.

Section AsyncFacts.

Context (L : Media).

(** X18: the first poll after [create_reel_async] delivers the outcome and
    forgets the session: it answers "completed" with the download address
    or "failed" with the error message, and the registry is the one before
    the job, without any record for this session. *)
Theorem async_then_poll (path_exists : string -> bool) (session_id : string)
    (video_paths : list string) (video_settings : list VideoSetting)
    (captions : list Caption) (music_path : option string) (mute_videos : bool)
    (text_style : option TextStyle) (music_fade : Q) (output_filename : string)
    (j : jobs) :
  let run := create_reel L video_paths video_settings captions music_path
                         mute_videos text_style music_fade output_filename
                         (start_world L) in
  let j' := snd (create_reel_async L session_id video_paths video_settings captions
                   music_path mute_videos text_style music_fade output_filename j) in
  let answer := fst (check_status path_exists session_id j') in
  let j'' := snd (check_status path_exists session_id j') in
  job_status j'' = delete session_id (job_status j) /\
  job_results j'' = delete session_id (job_results j) /\
  ((exists p, snd run = Return p /\
      answer !! "status" = Some (JStr "completed") /\
      answer !! "success" = Some (JBool true) /\
      answer !! "download_url" = Some (JStr (download_url session_id))) \/
   (exists e, snd run = Raise e /\
      answer !! "status" = Some (JStr "failed") /\
      answer !! "error" = Some (JStr e))).
Proof.
  cbv zeta. unfold create_reel_async.
  destruct (create_reel L video_paths video_settings captions music_path mute_videos
              text_style music_fade output_filename (start_world L)) as [w [e|p]];
    cbn [fst snd].
  - rewrite poll_failed by (cbn [job_status]; apply lookup_insert_eq).
    cbn [fst snd job_status job_results].
    rewrite !delete_insert_eq, lookup_insert_eq.
    split; [reflexivity|]. split; [reflexivity|].
    right. exists e. split; [reflexivity|]. unfold with_status. cbn [default].
    split.
    + rewrite lookup_union_r by reflexivity. reflexivity.
    + apply lookup_union_Some_l. apply lookup_singleton_eq.
  - rewrite poll_completed by (cbn [job_status]; apply lookup_insert_eq).
    cbn [fst snd job_status job_results].
    rewrite !delete_insert_eq, lookup_insert_eq.
    split; [reflexivity|]. split; [reflexivity|].
    left. exists p. split; [reflexivity|]. unfold with_status. cbn [default].
    split; [|split].
    + rewrite lookup_union_r by reflexivity. reflexivity.
    + apply lookup_union_Some_l. reflexivity.
    + apply lookup_union_Some_l. reflexivity.
Qed.

End AsyncFacts.

(** ** The render endpoint *)

(** What an accepted request launches. *)
Lemma endpoint_accepted (S : Storage) (data : Request) (j j' : jobs)
    (resp : Z * gmap string json) (l : Launch) :
  create_reel_endpoint S data j = (resp, j', Some l) ->
  exists session_id,
    rq_session_id data = Some session_id /\ session_id <> "" /\
    st_exists S (os_path_join UPLOAD_FOLDER session_id) = true /\
    listed_files S (os_path_join UPLOAD_FOLDER session_id) <> [] /\
    fst resp = 200%Z /\
    j' = {| job_status := <[session_id := "processing"]> (job_status j);
            job_results := job_results j |} /\
    l_session_id l = session_id /\
    l_video_paths l
      = chosen_files (listed_files S (os_path_join UPLOAD_FOLDER session_id))
                     (rq_video_settings data) /\
    l_video_settings l = rq_video_settings data /\
    l_output_filename l = (session_id ++ ".mp4")%string /\
    (forall m, l_music_path l = Some m -> st_exists S m = true).
Proof.
  unfold create_reel_endpoint.
  destruct (rq_session_id data) as [[|a r]|]; try discriminate.
  destruct (st_exists S (os_path_join UPLOAD_FOLDER (String a r))) eqn:Eex;
    [|discriminate]. cbn [negb].
  destruct (listed_files S (os_path_join UPLOAD_FOLDER (String a r)))
    as [|f0 fs] eqn:Efiles; [discriminate|].
  intros H. exists (String a r). rewrite ?Efiles.
  split; [reflexivity|]. split; [discriminate|]. split; [exact Eex|].
  split; [discriminate|].
  destruct (rq_music_source data) as [source|];
    destruct (rq_music_path data) as [[|b s]|];
    try (injection H as <- <- <-; repeat split; discriminate).
  destruct (String.eqb source "local");
    [|injection H as <- <- <-; repeat split; discriminate].
  destruct (st_exists S (String b s)) eqn:Em; [|discriminate].
  injection H as <- <- <-. repeat split.
  intros m Hm. cbn in Hm. injection Hm as <-. exact Em.
Qed.




(** X20: the life of an accepted request: until the worker finishes a poll
    answers "processing" and changes nothing; the first poll after the
    worker has finished answers "completed" or "failed" and removes the
    session, so that the registry is the one before the request without
    this session; when the answer is "completed" the worker has written
    exactly the file that later polls look for. *)
Theorem render_lifecycle (L : Media) (S : Storage) (path_exists : string -> bool)
    (data : Request) (j j1 : jobs) (resp : Z * gmap string json) (l : Launch) :
  create_reel_endpoint S data j = (resp, j1, Some l) ->
  let session_id := l_session_id l in
  let finished := run_launch L l j1 in
  let first := check_status path_exists session_id (snd finished) in
  check_status path_exists session_id j1 = ({[ "status" := JStr "processing" ]}, j1) /\
  (fst first !! "status" = Some (JStr "completed") \/
   fst first !! "status" = Some (JStr "failed")) /\
  (fst first !! "status" = Some (JStr "completed") ->
   written (trace (fst finished))
     = [path_join OUTPUT_FOLDER (session_id ++ ".mp4")]) /\
  job_status (snd first) = delete session_id (job_status j) /\
  job_results (snd first) = delete session_id (job_results j) /\
  check_status path_exists session_id (snd first)
    = (absent_answer path_exists session_id, snd first).
Proof.
  intros Haccept.
  destruct (endpoint_accepted S data j j1 resp l Haccept)
    as (sid & _ & _ & _ & _ & _ & -> & Hsid & _ & _ & Hout & _).
  cbv zeta. rewrite Hsid.
  split.
  { unfold check_status. cbn [job_status]. rewrite lookup_insert_eq. reflexivity. }
  unfold run_launch. rewrite Hsid, Hout. unfold create_reel_async.
  pose proof (create_reel_writes L (l_video_paths l) (l_video_settings l)
                (l_captions l) (l_music_path l) (l_mute_videos l) (l_text_style l)
                (l_music_fade l) (sid ++ ".mp4")) as Hw.
  cbv zeta in Hw. destruct Hw as (_ & Hw).
  destruct (create_reel L (l_video_paths l) (l_video_settings l) (l_captions l)
              (l_music_path l) (l_mute_videos l) (l_text_style l) (l_music_fade l)
              (sid ++ ".mp4") (start_world L)) as [w [e|p]]; cbn [fst snd] in *.
  - rewrite poll_failed by (cbn [job_status]; apply lookup_insert_eq).
    cbn [fst snd job_status job_results].
    rewrite !delete_insert_eq, lookup_insert_eq. unfold with_status. cbn [default].
    split; [right; rewrite lookup_union_r by reflexivity; reflexivity|].
    split.
    { rewrite lookup_union_r by reflexivity. intros H. discriminate. }
    split; [reflexivity|]. split; [reflexivity|].
    apply poll_absent. cbn [job_status]. apply lookup_delete_eq.
  - rewrite poll_completed by (cbn [job_status]; apply lookup_insert_eq).
    cbn [fst snd job_status job_results].
    rewrite !delete_insert_eq, lookup_insert_eq. unfold with_status. cbn [default].
    split; [left; rewrite lookup_union_r by reflexivity; reflexivity|].
    split; [intros _; now apply (Hw p)|].
    split; [reflexivity|]. split; [reflexivity|].
    apply poll_absent. cbn [job_status]. apply lookup_delete_eq.
Qed.

(** *** Paths and base names *)

Lemma ends_with_slash_split (a : string) :
  ends_with_slash a = true -> exists pre, a = String.append pre "/".
Proof.
  induction a as [|c rest IH]; simpl; [discriminate|].
  destruct rest as [|c' rest'].
  - intros H. apply Ascii.eqb_eq in H. subst. now exists "".
  - intros H. destruct (IH H) as (pre & E). exists (String c pre).
    rewrite E. reflexivity.
Qed.

Lemma has_slash_append_slash (pre f : string) :
  has_slash (String.append pre (String "/" f)) = true.
Proof.
  induction pre as [|c pre IH]; [reflexivity|].
  rewrite append_cons. simpl. rewrite IH. apply orb_true_r.
Qed.

Lemma basename_after_slash (pre f : string) :
  has_slash f = false -> basename (String.append pre (String "/" f)) = f.
Proof.
  intros Hf. induction pre as [|c pre IH].
  - rewrite append_nil. simpl. now rewrite Hf.
  - rewrite append_cons. simpl. now rewrite has_slash_append_slash.
Qed.

Lemma append_assoc (a b c : string) :
  String.append (String.append a b) c = String.append a (String.append b c).
Proof.
  induction a as [|x a IH]; [reflexivity|]. rewrite !append_cons. now rewrite IH.
Qed.

Lemma os_path_join_slash (folder f : string) :
  folder <> "" -> has_slash f = false ->
  exists pre, os_path_join folder f = String.append pre (String "/" f).
Proof.
  intros Hne Hf. unfold os_path_join.
  assert (Hstart : match f with String "/" _ => False | _ => True end).
  { destruct f as [|c f']; [exact I|]. simpl in Hf. apply orb_false_iff in Hf.
    destruct Hf as [Hc _]. destruct c as [[] [] [] [] [] [] [] []]; try exact I.
    discriminate. }
  assert (E : match f with
              | String "/" _ => f
              | _ => match folder with
                     | "" => f
                     | _ => if ends_with_slash folder
                            then String.append folder f
                            else String.append folder (String.append "/" f)
                     end
              end
              = if ends_with_slash folder
                then String.append folder f
                else String.append folder (String.append "/" f)).
  { destruct folder as [|a r]; [contradiction|].
    destruct f as [|c f']; [reflexivity|].
    destruct c as [[] [] [] [] [] [] [] []]; try reflexivity. contradiction. }
  change (match f with
          | String "/" _ => f
          | _ => match folder with
                 | "" => f
                 | _ => if ends_with_slash folder
                        then (folder ++ f)%string
                        else (folder ++ "/" ++ f)%string
                 end
          end) with
    (match f with
     | String "/" _ => f
     | _ => match folder with
            | "" => f
            | _ => if ends_with_slash folder
                   then String.append folder f
                   else String.append folder (String.append "/" f)
            end
     end).
  rewrite E.
  destruct (ends_with_slash folder) eqn:Es.
  - destruct (ends_with_slash_split folder Es) as (pre & ->).
    exists pre. now rewrite append_assoc.
  - exists folder. reflexivity.
Qed.

Lemma basename_join (folder f : string) :
  folder <> "" -> has_slash f = false -> basename (os_path_join folder f) = f.
Proof.
  intros Hne Hf. destruct (os_path_join_slash folder f Hne Hf) as (pre & ->).
  now apply basename_after_slash.
Qed.

Lemma session_folder_nonempty (session_id : string) :
  session_id <> "" -> os_path_join UPLOAD_FOLDER session_id <> "".
Proof.
  intros Hne. destruct session_id as [|c r]; [contradiction|].
  unfold os_path_join, UPLOAD_FOLDER.
  destruct c as [[] [] [] [] [] [] [] []]; discriminate.
Qed.

(** *** The order of the files *)

Lemma insert_by_order_perm (x : VideoSetting) (l : list VideoSetting) :
  Permutation (insert_by_order x l) (x :: l).
Proof.
  induction l as [|y l IH]; simpl; [reflexivity|].
  destruct (order_key y <? order_key x)%Z; [|reflexivity].
  rewrite IH. apply perm_swap.
Qed.

Lemma sorted_by_order_perm (l : list VideoSetting) :
  Permutation (sorted_by_order l) l.
Proof.
  induction l as [|x l IH]; [reflexivity|].
  unfold sorted_by_order in *. simpl. rewrite insert_by_order_perm. now constructor.
Qed.

Lemma insert_by_order_sorted (x : VideoSetting) (l : list VideoSetting) :
  StronglySorted (fun a b => (order_key a <= order_key b)%Z) l ->
  StronglySorted (fun a b => (order_key a <= order_key b)%Z) (insert_by_order x l).
Proof.
  induction l as [|y l IH]; intros Hs; simpl.
  - constructor; constructor.
  - inversion Hs as [|? ? Hl Hy]; subst.
    destruct (order_key y <? order_key x)%Z eqn:E.
    + apply Z.ltb_lt in E. constructor; [now apply IH|].
      apply List.Forall_forall. intros z Hz.
      apply (Permutation_in _ (insert_by_order_perm x l)) in Hz.
      destruct Hz as [<-|Hz]; [lia|].
      rewrite List.Forall_forall in Hy. now apply Hy.
    + apply Z.ltb_ge in E. constructor; [exact Hs|].
      constructor; [exact E|].
      apply List.Forall_forall. intros z Hz. rewrite List.Forall_forall in Hy.
      specialize (Hy z Hz). lia.
Qed.

Lemma sorted_by_order_sorted (l : list VideoSetting) :
  StronglySorted (fun a b => (order_key a <= order_key b)%Z) (sorted_by_order l).
Proof.
  induction l as [|x l IH]; [constructor|].
  unfold sorted_by_order in *. simpl. now apply insert_by_order_sorted.
Qed.

Lemma sorted_filter {A} (R : A -> A -> Prop) (f : A -> bool) (l : list A) :
  StronglySorted R l -> StronglySorted R (List.filter f l).
Proof.
  induction 1 as [|x l Hs IH Hx]; simpl; [constructor|].
  destruct (f x); [|exact IH]. constructor; [exact IH|].
  apply List.Forall_forall. intros y Hy. apply filter_In in Hy.
  rewrite List.Forall_forall in Hx. apply Hx. tauto.
Qed.

(** The files chosen for sorted settings, when the listed names are plain
    names: one file per entry that names a listed file. *)
Lemma order_files_matched (folder : string) (names : list string)
    (settings : list VideoSetting) :
  folder <> "" ->
  Forall (fun f => has_slash f = false) names ->
  order_files (map (os_path_join folder) names) settings
    = map (fun vs => os_path_join folder (default "" (vs_filename vs)))
          (List.filter (fun vs => in_set (default "" (vs_filename vs)) names) settings).
Proof.
  intros Hne Hnames.
  assert (Hbase : map basename (map (os_path_join folder) names) = names).
  { rewrite map_map. rewrite <- (map_id names) at 2. apply map_ext_in.
    intros f Hf. apply basename_join; [exact Hne|].
    rewrite List.Forall_forall in Hnames. now apply Hnames. }
  induction settings as [|vs rest IH]; simpl; [reflexivity|].
  rewrite Hbase.
  destruct (in_set (default "" (vs_filename vs)) names) eqn:Ein; [|exact IH].
  set (fn := default "" (vs_filename vs)) in *.
  apply in_set_In in Ein.
  destruct (List.filter (fun f => String.eqb (basename f) fn)
              (map (os_path_join folder) names)) as [|f fs] eqn:Ef.
  - exfalso.
    assert (Hin : In (os_path_join folder fn)
                     (List.filter (fun f => String.eqb (basename f) fn)
                        (map (os_path_join folder) names))).
    { apply filter_In. split; [now apply in_map|].
      rewrite basename_join; [apply String.eqb_refl | exact Hne |].
      rewrite List.Forall_forall in Hnames. now apply Hnames. }
    rewrite Ef in Hin. destruct Hin.
  - simpl. rewrite IH. f_equal.
    assert (Hin : In f (List.filter (fun f => String.eqb (basename f) fn)
                          (map (os_path_join folder) names)))
      by (rewrite Ef; now left).
    apply filter_In in Hin. destruct Hin as [Hin Hb].
    apply String.eqb_eq in Hb. apply in_map_iff in Hin.
    destruct Hin as (name & <- & Hname).
    rewrite basename_join in Hb; [now subst | exact Hne |].
    rewrite List.Forall_forall in Hnames. now apply Hnames.
Qed.

(** X21: the files handed to the worker follow the settings: when the
    listed names are plain file names, the worker gets one file for each
    settings entry that names an accepted video of the folder, in ascending
    [order] (entries that name nothing there are ignored); when no entry
    names such a file it gets all accepted videos in listing order. *)
Theorem launched_files_follow_order (S : Storage) (data : Request) (j j' : jobs)
    (resp : Z * gmap string json) (l : Launch) :
  create_reel_endpoint S data j = (resp, j', Some l) ->
  let folder := os_path_join UPLOAD_FOLDER (l_session_id l) in
  let names := List.filter allowed_file (st_listdir S folder) in
  let matched :=
    List.filter (fun vs => in_set (default "" (vs_filename vs)) names)
                (sorted_by_order (rq_video_settings data)) in
  Forall (fun f => has_slash f = false) (st_listdir S folder) ->
  StronglySorted (fun a b => (order_key a <= order_key b)%Z) matched /\
  l_video_paths l
    = match matched with
      | [] => map (os_path_join folder) names
      | _ => map (fun vs => os_path_join folder (default "" (vs_filename vs))) matched
      end.
Proof.
  intros Haccept.
  destruct (endpoint_accepted S data j j' resp l Haccept)
    as (sid & _ & Hne & _ & _ & _ & _ & Hsid & Hpaths & _).
  cbv zeta. rewrite Hsid. intros Hplain.
  split; [apply sorted_filter, sorted_by_order_sorted|].
  rewrite Hpaths. unfold chosen_files, listed_files.
  assert (Hnames : Forall (fun f => has_slash f = false)
                     (List.filter allowed_file
                        (st_listdir S (os_path_join UPLOAD_FOLDER sid)))).
  { apply List.Forall_forall. intros f Hf. apply filter_In in Hf.
    rewrite List.Forall_forall in Hplain. apply Hplain. tauto. }
  destruct (rq_video_settings data) as [|vs rest] eqn:Es; [reflexivity|].
  rewrite (order_files_matched _ _ _ (session_folder_nonempty sid Hne) Hnames).
  destruct (List.filter _ (sorted_by_order (vs :: rest))); reflexivity.
Qed.

(** *** Settings and files *)

Lemma sorted_perm_unique (l1 l2 : list Z) :
  StronglySorted Z.le l1 -> StronglySorted Z.le l2 -> Permutation l1 l2 -> l1 = l2.
Proof.
  revert l2. induction l1 as [|x l1 IH]; intros l2 H1 H2 Hp.
  - apply Permutation_nil in Hp. now subst.
  - destruct l2 as [|y l2]; [symmetry in Hp; now apply Permutation_nil in Hp|].
    inversion H1 as [|? ? Hs1 Hx]; subst. inversion H2 as [|? ? Hs2 Hy]; subst.
    rewrite List.Forall_forall in Hx, Hy.
    assert (Exy : x = y).
    { assert (Hxin : In x (y :: l2)) by (apply (Permutation_in _ Hp); now left).
      assert (Hyin : In y (x :: l1))
        by (apply (Permutation_in _ (Permutation_sym Hp)); now left).
      destruct Hxin as [->|Hxin]; [reflexivity|].
      destruct Hyin as [->|Hyin]; [reflexivity|].
      specialize (Hx y Hyin). specialize (Hy x Hxin). lia. }
    subst y. f_equal. apply IH; try assumption.
    eapply Permutation_cons_inv. exact Hp.
Qed.

Lemma ranks_sorted (n start : nat) :
  StronglySorted Z.le (map Z.of_nat (seq start n)).
Proof.
  revert start. induction n as [|n IH]; intros start; simpl; constructor.
  - apply IH.
  - apply List.Forall_forall. intros z Hz. apply in_map_iff in Hz.
    destruct Hz as (k & <- & Hk). apply in_seq in Hk. lia.
Qed.

Lemma sorted_keys (l : list VideoSetting) :
  StronglySorted (fun a b => (order_key a <= order_key b)%Z) l ->
  StronglySorted Z.le (map order_key l).
Proof.
  induction 1 as [|x l Hs IH Hx]; simpl; constructor; [exact IH|].
  apply List.Forall_forall. intros z Hz. apply in_map_iff in Hz.
  destruct Hz as (y & <- & Hy). rewrite List.Forall_forall in Hx. now apply Hx.
Qed.

Lemma filter_keeps_all {A} (f : A -> bool) (l : list A) :
  (forall x, In x l -> f x = true) -> List.filter f l = l.
Proof.
  induction l as [|x l IH]; intros H; simpl; [reflexivity|].
  rewrite (H x) by now left. f_equal. apply IH. intros y Hy. apply H. now right.
Qed.

(** When the orders of the entries are their ranks, the sorted entries
    carry the keys 0, 1, 2, ... *)
Lemma ranked_keys (settings : list VideoSetting) :
  Permutation (map vs_order settings)
              (map (fun i => Some (Z.of_nat i)) (seq 0 (length settings))) ->
  map order_key (sorted_by_order settings)
    = map Z.of_nat (seq 0 (length settings)).
Proof.
  intros Hperm. apply sorted_perm_unique.
  - apply sorted_keys, sorted_by_order_sorted.
  - apply ranks_sorted.
  - rewrite (Permutation_map order_key (sorted_by_order_perm settings)).
    unfold order_key. rewrite <- (map_map vs_order (default 0%Z)).
    rewrite (Permutation_map (default 0%Z) Hperm).
    rewrite map_map. reflexivity.
Qed.

(** X22: each video gets its own settings when the request is well formed:
    if the [order] values of the entries are 0, 1, ..., n-1 in some
    arrangement and the entries name distinct accepted videos of the
    session folder, then the worker finds every entry's file at the
    position [order] of its paths, and the settings map of [create_reel]
    files the entry under that file. *)
Theorem settings_reach_their_files (S : Storage) (data : Request) (j j' : jobs)
    (resp : Z * gmap string json) (l : Launch) :
  create_reel_endpoint S data j = (resp, j', Some l) ->
  let folder := os_path_join UPLOAD_FOLDER (l_session_id l) in
  let names := List.filter allowed_file (st_listdir S folder) in
  let settings := rq_video_settings data in
  Forall (fun f => has_slash f = false) (st_listdir S folder) ->
  Permutation (map vs_order settings)
              (map (fun i => Some (Z.of_nat i)) (seq 0 (length settings))) ->
  Forall (fun vs => exists f, vs_filename vs = Some f /\ In f names) settings ->
  List.NoDup (map vs_filename settings) ->
  exists settings_map,
    build_settings_map (l_video_paths l) (l_video_settings l) ∅ = Return settings_map /\
    forall vs, In vs settings ->
      exists f order,
        vs_filename vs = Some f /\ vs_order vs = Some order /\
        py_index (l_video_paths l) order = Return (os_path_join folder f) /\
        settings_map !! os_path_join folder f = Some vs.
Proof.
  intros Haccept.
  destruct (endpoint_accepted S data j j' resp l Haccept)
    as (sid & _ & Hne & _ & _ & _ & _ & Hsid & Hpaths & Hset & _).
  cbv zeta. rewrite Hsid, Hset. intros Hplain Hperm Hnamed Hnodup.
  set (folder := os_path_join UPLOAD_FOLDER sid) in *.
  set (names := List.filter allowed_file (st_listdir S folder)) in *.
  set (settings := rq_video_settings data) in *.
  set (g := fun vs => os_path_join folder (default "" (vs_filename vs))).
  assert (Hfolder : folder <> "") by (apply session_folder_nonempty; exact Hne).
  assert (Hnames : Forall (fun f => has_slash f = false) names).
  { apply List.Forall_forall. intros f Hf. apply filter_In in Hf.
    rewrite List.Forall_forall in Hplain. apply Hplain. tauto. }
  rewrite List.Forall_forall in Hnamed.
  destruct settings as [|vs0 rest] eqn:Es.
  { exists ∅. split; [reflexivity | intros vs []]. }
  rewrite <- Es in *.
  assert (Hsorted_in : forall vs, In vs (sorted_by_order settings) <-> In vs settings).
  { intros vs. split; apply Permutation_in;
      [apply sorted_by_order_perm | apply Permutation_sym, sorted_by_order_perm]. }
  assert (Hp : l_video_paths l = map g (sorted_by_order settings)).
  { rewrite Hpaths. unfold chosen_files, listed_files. fold folder names.
    rewrite Es at 1.
    rewrite (order_files_matched folder names _ Hfolder Hnames).
    rewrite filter_keeps_all.
    - destruct (sorted_by_order settings) as [|s ss] eqn:E; [|reflexivity].
      exfalso. apply (Hsorted_in vs0). rewrite Es. now left.
    - intros vs Hvs. apply Hsorted_in in Hvs.
      destruct (Hnamed vs Hvs) as (f & Hf & Hin). rewrite Hf. cbn [default from_option id].
      now apply in_set_In. }
  pose proof (ranked_keys settings Hperm) as Hkeys.
  assert (Hlen : length (l_video_paths l) = length settings).
  { rewrite Hp, length_map. apply Permutation_length, sorted_by_order_perm. }
  assert (Hat : forall vs, In vs settings ->
            exists i, vs_order vs = Some (Z.of_nat i) /\
                      nth_error (l_video_paths l) i = Some (g vs) /\
                      (i < length settings)%nat).
  { intros vs Hvs.
    assert (Ho : In (vs_order vs) (map vs_order settings)) by now apply in_map.
    apply (Permutation_in _ Hperm) in Ho. apply in_map_iff in Ho.
    destruct Ho as (i & Hi & Hrange). apply in_seq in Hrange.
    apply Hsorted_in in Hvs. apply In_nth_error in Hvs. destruct Hvs as (k & Hk).
    assert (Hkey : nth_error (map order_key (sorted_by_order settings)) k
                   = Some (order_key vs)) by (rewrite nth_error_map, Hk; reflexivity).
    rewrite Hkeys, nth_error_map in Hkey.
    destruct (nth_error (seq 0 (length settings)) k) as [k'|] eqn:Ek; [|discriminate].
    assert (Hk' : k' = k).
    { assert (Hlt : (k < length (seq 0 (length settings)))%nat)
        by (apply nth_error_Some; congruence).
      rewrite length_seq in Hlt. rewrite nth_error_seq in Ek.
      destruct (Nat.ltb_spec k (length settings)); [|lia].
      injection Ek as <-. reflexivity. }
    subst k'. cbn in Hkey. injection Hkey as Hkey.
    unfold order_key in Hkey. rewrite <- Hi in Hkey. cbn in Hkey.
    assert (k = i) by lia. subst k.
    exists i. split; [now symmetry|]. split; [|lia].
    rewrite Hp, nth_error_map, Hk. reflexivity. }
  assert (Hidx : forall vs, In vs settings ->
            exists order, vs_order vs = Some order /\
                          (0 <= order < Z.of_nat (length (l_video_paths l)))%Z /\
                          py_index (l_video_paths l) order = Return (g vs)).
  { intros vs Hvs. destruct (Hat vs Hvs) as (i & Ho & Hnth & Hlt).
    exists (Z.of_nat i). split; [exact Ho|]. split; [lia|].
    unfold py_index.
    assert (E0 : (Z.of_nat i <? 0)%Z = false) by (apply Z.ltb_ge; lia).
    assert (E1 : (0 <=? Z.of_nat i)%Z = true) by (apply Z.leb_le; lia).
    assert (E2 : (Z.of_nat i <? Z.of_nat (length (l_video_paths l)))%Z = true)
      by (apply Z.ltb_lt; lia).
    rewrite E0, E1, E2, Nat2Z.id, Hnth. reflexivity. }
  assert (Hok : Forall (usable_order (length (l_video_paths l))) settings).
  { apply List.Forall_forall. intros vs Hvs.
    destruct (Hidx vs Hvs) as (o & Ho & Hrange & _). exists o. split; [exact Ho | lia]. }
  apply (build_settings_map_ok _ _ ∅) in Hok. destruct Hok as (m & Hm).
  exists m. split; [exact Hm|].
  destruct (build_settings_map_entries _ _ _ _ Hm) as (H1 & _ & H3).
  intros vs Hvs.
  destruct (Hnamed vs Hvs) as (f & Hf & Hfin).
  destruct (Hidx vs Hvs) as (o & Ho & Hrange & Hpy).
  assert (Eg : g vs = os_path_join folder f) by (unfold g; now rewrite Hf).
  exists f, o. split; [exact Hf|]. split; [exact Ho|]. rewrite <- Eg.
  split; [exact Hpy|].
  destruct (H3 vs o (g vs) Hvs Ho ltac:(lia) Hpy) as (vs' & Hl).
  rewrite Hl. f_equal.
  destruct (H1 _ _ Hl) as [Hempty | (Hvs' & o' & Ho' & Hpy')];
    [rewrite lookup_empty in Hempty; discriminate|].
  destruct (Hidx vs' Hvs') as (o'' & Ho'' & _ & Hpy'').
  rewrite Ho' in Ho''. injection Ho'' as <-. rewrite Hpy' in Hpy''.
  injection Hpy'' as Hg.
  destruct (Hnamed vs' Hvs') as (f' & Hf' & Hfin').
  assert (Eff : f = f').
  { rewrite List.Forall_forall in Hnames.
    rewrite <- (basename_join folder f Hfolder (Hnames f Hfin)).
    rewrite <- (basename_join folder f' Hfolder (Hnames f' Hfin')).
    rewrite <- Eg, Hg. unfold g. now rewrite Hf'. }
  subst f'.
  clear -Hnodup Hvs Hvs' Hf Hf'.
  induction settings as [|a rest IH]; [destruct Hvs|].
  simpl in Hnodup. inversion Hnodup as [|? ? Hnotin Hnd]; subst.
  destruct Hvs as [->|Hvs]; destruct Hvs' as [->|Hvs']; try reflexivity.
  - exfalso. apply Hnotin. rewrite Hf, <- Hf'. now apply in_map.
  - exfalso. apply Hnotin. rewrite Hf', <- Hf. now apply in_map.
  - now apply IH.
Qed.

(** ** Witnesses on the studio *)

(** A witness of [handles_released]: a run over a good and a broken video
    in the studio with object identity. *)
Lemma handles_released_witness :
  let run := create_reel plain_studio ["a.mp4"; "broken.mp4"] [narrow_setting]
                         [late_caption] (Some "song.mp3") true None 2 "out.mp4"
                         (start_world plain_studio) in
  open_handles (trace (fst run)) [] = [] \/
  exists e before,
    snd run = Raise e /\ trace (fst run) = before ++ [Print Written; CloseClip].
Proof.
  apply (handles_released plain_studio ["a.mp4"; "broken.mp4"] [narrow_setting]
           [late_caption] (Some "song.mp3") true None 2 "out.mp4").
  intros a b. reflexivity.
Defined.

(** A witness of [settings_map_entries]: one entry for the first of two
    paths. *)
Lemma settings_map_entries_witness :
  is_Some (({[ "a.mp4" := narrow_setting ]} : gmap string VideoSetting) !! "a.mp4") <->
  exists vs order,
    In vs [narrow_setting] /\ vs_order vs = Some order /\
    (order < Z.of_nat (length ["a.mp4"; "b.mp4"]))%Z /\
    py_index ["a.mp4"; "b.mp4"] order = Return "a.mp4".
Proof.
  assert (Hmap : build_settings_map ["a.mp4"; "b.mp4"] [narrow_setting] ∅
                 = Return {[ "a.mp4" := narrow_setting ]}) by reflexivity.
  exact (proj2 (settings_map_entries ["a.mp4"; "b.mp4"] [narrow_setting] _ Hmap "a.mp4")).
Defined.

(** A witness of [render_lifecycle]: the request [swap_request] on the
    [shelf], rendered in the studio. *)
Lemma render_lifecycle_witness :
  exists resp j1 l,
    create_reel_endpoint shelf swap_request two_jobs = (resp, j1, Some l) /\
    check_status (fun _ => false) "s1" j1 = ({[ "status" := JStr "processing" ]}, j1) /\
    job_status (snd (check_status (fun _ => false) "s1" (snd (run_launch studio l j1))))
      = delete "s1" (job_status two_jobs).
Proof.
  eexists _, _, _. split; [reflexivity|].
  pose proof (render_lifecycle studio shelf (fun _ => false) swap_request two_jobs
                _ _ _ eq_refl) as H.
  cbv zeta in H. destruct H as (H1 & _ & _ & H4 & _).
  split; [exact H1 | exact H4].
Defined.

(** A witness of [launched_files_follow_order]: [a.MOV] is put before
    [b.mp4], and the text file is left out. *)
Lemma launched_files_follow_order_witness :
  exists resp j1 l,
    create_reel_endpoint shelf swap_request two_jobs = (resp, j1, Some l) /\
    l_video_paths l = ["uploads/s1/a.MOV"; "uploads/s1/b.mp4"].
Proof.
  eexists _, _, _. split; [reflexivity|].
  refine (proj2 (launched_files_follow_order shelf swap_request two_jobs
                   _ _ _ eq_refl _)).
  repeat constructor.
Defined.

(** A witness of [settings_reach_their_files]: the trim of [swap_request]
    reaches [a.MOV]. *)
Lemma settings_reach_their_files_witness :
  exists resp j1 l settings_map,
    create_reel_endpoint shelf swap_request two_jobs = (resp, j1, Some l) /\
    build_settings_map (l_video_paths l) (l_video_settings l) ∅ = Return settings_map /\
    forall vs, In vs (rq_video_settings swap_request) ->
      exists f order,
        vs_filename vs = Some f /\ vs_order vs = Some order /\
        py_index (l_video_paths l) order = Return (os_path_join "uploads/s1" f) /\
        settings_map !! os_path_join "uploads/s1" f = Some vs.
Proof.
  assert (Hplain : Forall (fun f => has_slash f = false) (st_listdir shelf "uploads/s1"))
    by (repeat constructor).
  assert (Hperm : Permutation (map vs_order (rq_video_settings swap_request))
                    (map (fun i => Some (Z.of_nat i))
                         (seq 0 (length (rq_video_settings swap_request)))))
    by apply perm_swap.
  assert (Hnamed : Forall (fun vs => exists f, vs_filename vs = Some f /\
                      In f (List.filter allowed_file (st_listdir shelf "uploads/s1")))
                     (rq_video_settings swap_request)).
  { constructor; [exists "b.mp4"; split; [reflexivity | now left]|].
    constructor; [exists "a.MOV"; split; [reflexivity | right; now left]|].
    constructor. }
  assert (Hnodup : List.NoDup (map vs_filename (rq_video_settings swap_request))).
  { constructor; [intros [H|[]]; discriminate|].
    constructor; [intros []|]. constructor. }
  destruct (settings_reach_their_files shelf swap_request two_jobs _ _ _ eq_refl
              Hplain Hperm Hnamed Hnodup) as (m & Hm & Hall).
  eexists _, _, _, m. split; [reflexivity|]. split; [exact Hm | exact Hall].
Defined.
